(** * I14Y MCP server: API client, tool handlers and dispatch

    A shallow embedding of the client ([src/api/i14y-client.js]), the
    response formatters ([src/utils/formatting.js]), the tool modules
    ([src/tools/*.js]) and the dispatcher ([src/index.js]), with the
    properties of the specification proved over it.

    Conventions of the embedding.
    - JavaScript numbers are integers ([Z]); arithmetic on them is exact.
    - Query parameters and tool arguments hold JavaScript primitives
      ([prim]); decoded response bodies are JSON values ([json]).
    - A thrown value is a primitive or an object seen through the
      properties the code reads ([name], [message], [response.status],
      [issues]).
    - A JavaScript object used as a dictionary is a [gmap string _].
    - An [await]ed call that rejects is a call that throws; the HTTP
      transport (ky) is an oracle from requests to outcomes, and every
      request sent is recorded in a trace. Logging is not modelled. *)

From Stdlib Require Import ZArith QArith Qround Ascii String DecimalString DecimalPos.
From stdpp Require Import gmap strings list fin_maps.

Local Open Scope string_scope.
Local Open Scope Z_scope.

Set Warnings "-register-all".

(** ** JavaScript values *)

Module JS.

(** Primitive values. *)
Inductive prim : Type :=
  | PUndefined
  | PNull
  | PBool (b : bool)
  | PNum (n : Z)
  | PStr (s : string).

#[global] Instance prim_eq_dec : EqDecision prim.
Proof. solve_decision. Defined.

(** [String(n)] for an integer [n]. *)
Definition Number_toString (n : Z) : string :=
  NilZero.string_of_int (Z.to_int n).

(** [String(value)], also what a template literal does to a hole. *)
Definition String_ (v : prim) : string :=
  match v with
  | PUndefined => "undefined"
  | PNull => "null"
  | PBool true => "true"
  | PBool false => "false"
  | PNum n => Number_toString n
  | PStr s => s
  end.

(** [ToBoolean]: what [if (v)], [!v] and [v ? a : b] test. *)
Definition truthy (v : prim) : bool :=
  match v with
  | PUndefined | PNull => false
  | PBool b => b
  | PNum n => negb (n =? 0)
  | PStr s => negb (String.eqb s "")
  end.

(** [a === b] on primitives. *)
Definition strict_eq (a b : prim) : bool :=
  match a, b with
  | PUndefined, PUndefined => true
  | PNull, PNull => true
  | PBool x, PBool y => Bool.eqb x y
  | PNum x, PNum y => x =? y
  | PStr x, PStr y => String.eqb x y
  | _, _ => false
  end.

(** [s.includes(sub)] / vitest's [toContain] on strings. *)
Fixpoint includes (sub s : string) : bool :=
  String.prefix sub s ||
  match s with
  | EmptyString => false
  | String _ r => includes sub r
  end.

(** The specification's "message contains": [sub] occurs inside [s]. *)
Definition contains (s sub : string) : Prop :=
  ∃ pre post : string, s = pre +:+ sub +:+ post.

End JS.
Import JS.

(** ** Parameter canonicalizer ([_buildSearchParams]) *)

(** The test of the [forEach] body:
    [value !== undefined && value !== null && value !== ''] *)
Definition provided (value : prim) : bool :=
  negb (strict_eq value PUndefined) &&
  negb (strict_eq value PNull) &&
  negb (strict_eq value (PStr "")).

(** One iteration of [Object.entries(params).forEach(([key, value]) => ...)]. *)
Definition add_param (key : string) (value : prim)
    (searchParams : gmap string string) : gmap string string :=
  if provided value then <[key := String_ value]> searchParams
  else searchParams.

(** [!searchParams.page]: the property is missing or is the empty string. *)
Definition lacks (searchParams : gmap string string) (key : string) : bool :=
  match searchParams !! key with
  | None => true
  | Some s => negb (truthy (PStr s))
  end.

Definition _buildSearchParams (params : gmap string prim)
    (defaultPage defaultPageSize : Z) : gmap string string :=
  let searchParams := map_fold add_param ∅ params in
  let searchParams :=
    if lacks searchParams "page"
    then <["page" := String_ (PNum defaultPage)]> searchParams
    else searchParams in
  let searchParams :=
    if lacks searchParams "pageSize"
    then <["pageSize" := String_ (PNum defaultPageSize)]> searchParams
    else searchParams in
  searchParams.

(** The result read back as a raw parameter map (every value a string). *)
Definition as_params (q : gmap string string) : gmap string prim :=
  PStr <$> q.

(** ** Thrown values and completions *)

Module Exn.

(** The [response] a ky [HTTPError] carries: a fetch [Response], of which
    the code reads the numeric [status] only. *)
Record Response : Type := { status : Z }.

(** One entry of [error.issues], as [formatError] reads it: [issue.path]
    ([None] when missing) and [issue.message]. *)
Record Issue : Type := {
  path : option (list prim);
  issue_message : prim;
}.

(** An object that is thrown or caught, through the properties read from
    it. [name] and [message] are what the property reads evaluate to
    (inherited ones included, an absent one is [PUndefined]);
    [response] is [None] when the object has none; [issues] is [None]
    unless the object has an array of issues. *)
Record Object : Type := {
  instanceof_Error : bool;
  name : prim;
  message : prim;
  response : option Response;
  issues : option (list Issue);
}.

(** Anything a [catch] clause can receive. *)
Inductive jsval : Type :=
  | Prim (p : prim)
  | Obj (o : Object).

(** The result of evaluating code that may throw. *)
Inductive completion (A : Type) : Type :=
  | Return (a : A)
  | Throw (e : jsval).
Arguments Return {A} a.
Arguments Throw {A} e.

#[global] Instance completion_ret : MRet completion := λ A a, Return a.
#[global] Instance completion_bind : MBind completion := λ A B f m,
  match m with
  | Return a => f a
  | Throw e => Throw e
  end.

(** [new Error(message)] *)
Definition new_Error (msg : string) : jsval :=
  Obj {| instanceof_Error := true; name := PStr "Error";
         message := PStr msg; response := None; issues := None |}.

(** The [TypeError] raised by a property read on [null] or [undefined]. *)
Definition TypeError_read (base : prim) (property : string) : jsval :=
  Obj {| instanceof_Error := true; name := PStr "TypeError";
         message := PStr ("Cannot read properties of " +:+ String_ base +:+
                          " (reading '" +:+ property +:+ "')");
         response := None; issues := None |}.

(** [v.message] *)
Definition get_message (v : jsval) : completion prim :=
  match v with
  | Prim PUndefined => Throw (TypeError_read PUndefined "message")
  | Prim PNull => Throw (TypeError_read PNull "message")
  | Prim _ => Return PUndefined
  | Obj o => Return (message o)
  end.

(** [v.response] *)
Definition get_response (v : jsval) : completion (option Response) :=
  match v with
  | Prim PUndefined => Throw (TypeError_read PUndefined "response")
  | Prim PNull => Throw (TypeError_read PNull "response")
  | Prim _ => Return None
  | Obj o => Return (response o)
  end.

End Exn.
Import Exn.

(** ** Error normalizer ([_handleError]) *)

Definition _handleError (error : jsval) : completion jsval :=
  (* if (error.message && !error.response) return error; *)
  msg ← get_message error;
  passthrough ←
    (if truthy msg
     then r ← get_response error; mret (negb (bool_decide (is_Some r)))
     else mret false);
  if (passthrough : bool) then mret error
  else
    r ← get_response error;
    match r with
    | Some resp =>
        let status := status resp in
        let message :=
          "API request failed with status " +:+ String_ (PNum status) in
        if status =? 400 then
          mret (new_Error (message +:+ ": Bad Request - Invalid parameters"))
        else if status =? 401 then
          mret (new_Error (message +:+ ": Unauthorized"))
        else if status =? 403 then
          mret (new_Error (message +:+ ": Forbidden"))
        else if status =? 404 then
          mret (new_Error (message +:+ ": Resource not found"))
        else if status >=? 500 then
          mret (new_Error (message +:+ ": Server error"))
        else mret error
    | None => mret error
    end.

(** ** JSON values and [JSON.stringify(value, null, 2)] *)

Module JSON.

(** A decoded response body, or any value handed to [JSON.stringify].
    Objects keep their properties in order. *)
Inductive json : Type :=
  | JNull
  | JBool (b : bool)
  | JNum (n : Z)
  | JStr (s : string)
  | JArr (elements : list json)
  | JObj (properties : list (string * json)).

Definition dquote : ascii := "034"%char.
Definition backslash : ascii := "092"%char.
Definition newline : string := String "010"%char "".

Definition hex_digit (n : N) : ascii :=
  ascii_of_N (if (n <? 10)%N then 48 + n else 87 + n).

(** The escape of one character inside a JSON string literal. *)
Definition escape_char (c : ascii) : string :=
  let n := N_of_ascii c in
  if Ascii.eqb c dquote then String backslash (String dquote "")
  else if Ascii.eqb c backslash then String backslash (String backslash "")
  else if (n =? 8)%N then String backslash "b"
  else if (n =? 9)%N then String backslash "t"
  else if (n =? 10)%N then String backslash "n"
  else if (n =? 12)%N then String backslash "f"
  else if (n =? 13)%N then String backslash "r"
  else if (n <? 32)%N then
    String backslash
      ("u00" +:+ String (hex_digit (n / 16)) (String (hex_digit (n mod 16)) ""))
  else String c "".

Fixpoint escape (s : string) : string :=
  match s with
  | EmptyString => ""
  | String c r => escape_char c +:+ escape r
  end.

(** A quoted JSON string literal. *)
Definition quote (s : string) : string :=
  String dquote (escape s +:+ String dquote "").

(** [parts.join(separator)] for parts that are strings already. *)
Fixpoint join (separator : string) (parts : list string) : string :=
  match parts with
  | [] => ""
  | [p] => p
  | p :: rest => p +:+ separator +:+ join separator rest
  end.

(** [JSON.stringify(value, null, 2)] at the current indentation. *)
Fixpoint stringify_at (indent : string) (value : json) : string :=
  let stepback := indent in
  let indent := indent +:+ "  " in
  let separator := "," +:+ newline +:+ indent in
  match value with
  | JNull => "null"
  | JBool true => "true"
  | JBool false => "false"
  | JNum n => Number_toString n
  | JStr s => quote s
  | JArr [] => "[]"
  | JArr elements =>
      "[" +:+ newline +:+ indent +:+
      join separator (List.map (stringify_at indent) elements) +:+
      newline +:+ stepback +:+ "]"
  | JObj [] => "{}"
  | JObj properties =>
      "{" +:+ newline +:+ indent +:+
      join separator
        (List.map (λ kv, quote (fst kv) +:+ ": " +:+ stringify_at indent (snd kv))
                  properties) +:+
      newline +:+ stepback +:+ "}"
  end.

Definition stringify (value : json) : string := stringify_at "" value.

End JSON.
Import JSON.

(** ** Response envelopes ([src/utils/formatting.js]) *)

Record ContentItem : Type := { type : string; text : string }.

(** [{ content: [...], isError?: boolean }]; [isError = None] is an
    envelope without the property. *)
Record Envelope : Type := {
  content : list ContentItem;
  isError : option bool;
}.

Definition formatSuccess (data : json) : Envelope :=
  {| content :=
       [ {| type := "text";
            text := match data with
                    | JStr s => s
                    | _ => stringify data
                    end |} ];
     isError := None |}.

(** [issue.path.join(".")]: [null] and [undefined] elements print as the
    empty string. *)
Definition Array_join (separator : string) (elements : list prim) : string :=
  join separator
    (List.map (λ e, match e with
                    | PUndefined | PNull => ""
                    | _ => String_ e
                    end) elements).

(** [a || b] *)
Definition or_else (a b : prim) : prim := if truthy a then a else b.

Definition formatError (error : jsval) : Envelope :=
  let unknown :=
    {| content := [ {| type := "text"; text := "Error: Unknown error" |} ];
       isError := Some true |} in
  let finish (message : prim) :=
    {| content := [ {| type := "text"; text := "Error: " +:+ String_ message |} ];
       isError := Some true |} in
  match error with
  | Prim p =>
      if negb (truthy p) then unknown
      else match p with
           | PStr s => finish (PStr s)
           | _ => finish (PStr "Unknown error")
           end
  | Obj o =>
      if instanceof_Error o then
        let message := or_else (message o) (PStr "Unknown error") in
        (* Include HTTP status if available *)
        let message :=
          match response o with
          | Some resp =>
              if truthy (PNum (status resp))
              then PStr (String_ (PNum (status resp)) +:+ ": " +:+ String_ message)
              else message
          | None => message
          end in
        (* Handle validation errors with issues *)
        let message :=
          match issues o with
          | Some issues =>
              if strict_eq (name o) (PStr "ValidationError") then
                let issueMessages :=
                  List.map (λ issue,
                    let path := match path issue with
                                | Some p => Array_join "." p
                                | None => "unknown"
                                end in
                    path +:+ ": " +:+ String_ (issue_message issue)) issues in
                PStr ("Validation Error:" +:+ newline +:+ join newline issueMessages)
              else message
          | None => message
          end in
        finish message
      else if truthy (message o) then finish (message o)
      else finish (PStr "Unknown error")
  end.

(** ** Pagination metadata ([formatPaginationInfo]) *)

Module Pagination.


(** [Math.ceil] of an exact quotient. *)
Definition Math_ceil (q : Q) : Z := Qceiling q.


End Pagination.

(** ** Request validation (zod)

    The schemas of the tool modules are built from a handful of zod 3
    combinators. zod is an external library; this module models the
    combinators the repository uses: type checks, [uuid], [int], [min],
    [max], [optional], [default], non-strict objects, and the error that
    [parse] throws (name [ZodError], message the JSON rendering of its
    issues). [describe] only attaches documentation and is left out. *)

Module Zod.

Inductive Check : Type :=
  | uuid
  | int
  | min (n : Z)
  | max (n : Z).

Inductive ZodType : Type :=
  | ZodString (checks : list Check)
  | ZodNumber (checks : list Check)
  | ZodEnum (values : list string)
  | ZodOptional (innerType : ZodType)
  | ZodDefault (innerType : ZodType) (defaultValue : prim).

(** [z.object({...})]: the shape, key by key. *)
Definition ZodObject : Type := list (string * ZodType).

(** One validation issue: its JSON rendering, and the two properties
    ([path], [message]) other code reads from it. *)
Record ZodIssue : Type := {
  issue_json : json;
  issue_path : list string;
  issue_text : string;
}.

Definition typeof (data : prim) : string :=
  match data with
  | PUndefined => "undefined"
  | PNull => "null"
  | PBool _ => "boolean"
  | PNum _ => "number"
  | PStr _ => "string"
  end.

Definition path_json (path : list string) : json := JArr (JStr <$> path).

Definition invalid_type (expected : string) (data : prim) (path : list string)
    : ZodIssue :=
  let message :=
    match data with
    | PUndefined => "Required"
    | _ => "Expected " +:+ expected +:+ ", received " +:+ typeof data
    end in
  {| issue_json := JObj [("code", JStr "invalid_type");
                         ("expected", JStr expected);
                         ("received", JStr (typeof data));
                         ("path", path_json path);
                         ("message", JStr message)];
     issue_path := path; issue_text := message |}.

(** The same issue as an enum reports it: [expected] is the list of
    values and comes first. *)
Definition invalid_enum_type (values : string) (data : prim)
    (path : list string) : ZodIssue :=
  let message :=
    match data with
    | PUndefined => "Required"
    | _ => "Expected " +:+ values +:+ ", received " +:+ typeof data
    end in
  {| issue_json := JObj [("expected", JStr values);
                         ("received", JStr (typeof data));
                         ("code", JStr "invalid_type");
                         ("path", path_json path);
                         ("message", JStr message)];
     issue_path := path; issue_text := message |}.

Definition invalid_uuid (path : list string) : ZodIssue :=
  {| issue_json := JObj [("validation", JStr "uuid");
                         ("code", JStr "invalid_string");
                         ("message", JStr "Invalid uuid");
                         ("path", path_json path)];
     issue_path := path; issue_text := "Invalid uuid" |}.

Definition too_small (minimum : Z) (path : list string) : ZodIssue :=
  let message :=
    "Number must be greater than or equal to " +:+ Number_toString minimum in
  {| issue_json := JObj [("code", JStr "too_small");
                         ("minimum", JNum minimum);
                         ("type", JStr "number");
                         ("inclusive", JBool true);
                         ("exact", JBool false);
                         ("message", JStr message);
                         ("path", path_json path)];
     issue_path := path; issue_text := message |}.

Definition too_big (maximum : Z) (path : list string) : ZodIssue :=
  let message :=
    "Number must be less than or equal to " +:+ Number_toString maximum in
  {| issue_json := JObj [("code", JStr "too_big");
                         ("maximum", JNum maximum);
                         ("type", JStr "number");
                         ("inclusive", JBool true);
                         ("exact", JBool false);
                         ("message", JStr message);
                         ("path", path_json path)];
     issue_path := path; issue_text := message |}.

(** ['A' | 'B' | ...] *)
Definition joinValues (values : list string) : string :=
  join " | " (List.map (λ v, "'" +:+ v +:+ "'") values).

Definition invalid_enum_value (values : list string) (received : string)
    (path : list string) : ZodIssue :=
  let message :=
    "Invalid enum value. Expected " +:+ joinValues values +:+
    ", received '" +:+ received +:+ "'" in
  {| issue_json := JObj [("received", JStr received);
                         ("code", JStr "invalid_enum_value");
                         ("options", JArr (JStr <$> values));
                         ("path", path_json path);
                         ("message", JStr message)];
     issue_path := path; issue_text := message |}.

Definition is_hex (c : ascii) : bool :=
  let n := N_of_ascii c in
  ((48 <=? n) && (n <=? 57) || (65 <=? n) && (n <=? 70) ||
   (97 <=? n) && (n <=? 102))%N.

(** Consume [n] hexadecimal digits. *)
Fixpoint hex_run (n : nat) (s : string) : option string :=
  match n, s with
  | O, _ => Some s
  | S n, String c r => if is_hex c then hex_run n r else None
  | S _, EmptyString => None
  end.

Definition dash (s : string) : option string :=
  match s with
  | String c r => if Ascii.eqb c "-"%char then Some r else None
  | EmptyString => None
  end.

(** zod's UUID pattern: hexadecimal groups of 8-4-4-4-12 digits. *)
Definition uuidRegex_test (s : string) : bool :=
  let rest : option string :=
    r ← hex_run 8 s; r ← dash r;
    r ← hex_run 4 r; r ← dash r;
    r ← hex_run 4 r; r ← dash r;
    r ← hex_run 4 r; r ← dash r;
    hex_run 12 r in
  match rest with
  | Some EmptyString => true
  | _ => false
  end.

(** The issues of one check on a string. *)
Definition string_check (path : list string) (s : string) (c : Check)
    : list ZodIssue :=
  match c with
  | uuid => if uuidRegex_test s then [] else [invalid_uuid path]
  | _ => []
  end.

(** The issues of one check on a number ([int] always passes on an
    integer). *)
Definition number_check (path : list string) (n : Z) (c : Check)
    : list ZodIssue :=
  match c with
  | min m => if n <? m then [too_small m path] else []
  | max m => if n >? m then [too_big m path] else []
  | _ => []
  end.

(** [type._parse]: the issues found and the output value. *)
Fixpoint _parse (t : ZodType) (path : list string) (data : prim)
    : list ZodIssue * prim :=
  match t with
  | ZodString checks =>
      match data with
      | PStr s => (concat (List.map (string_check path s) checks), data)
      | _ => ([invalid_type "string" data path], data)
      end
  | ZodNumber checks =>
      match data with
      | PNum n => (concat (List.map (number_check path n) checks), data)
      | _ => ([invalid_type "number" data path], data)
      end
  | ZodEnum values =>
      match data with
      | PStr s =>
          if existsb (String.eqb s) values then ([], data)
          else ([invalid_enum_value values s path], data)
      | _ => ([invalid_enum_type (joinValues values) data path], data)
      end
  | ZodOptional innerType =>
      match data with
      | PUndefined => ([], PUndefined)
      | _ => _parse innerType path data
      end
  | ZodDefault innerType defaultValue =>
      match data with
      | PUndefined => _parse innerType path defaultValue
      | _ => _parse innerType path data
      end
  end.

(** The object parser: every key of the shape is validated against
    [data[key]], the issues are collected, keys outside the shape are
    stripped, and a key is set in the output when its value is defined
    or the key was present in the input. *)
Fixpoint parse_shape (shape : ZodObject) (data : gmap string prim)
    : list ZodIssue * gmap string prim :=
  match shape with
  | [] => ([], ∅)
  | (key, t) :: rest =>
      let r := _parse t [key] (default PUndefined (data !! key)) in
      let rs := parse_shape rest data in
      ((r.1 ++ rs.1)%list,
       match r.2, data !! key with
       | PUndefined, None => rs.2
       | value, _ => <[key := value]> rs.2
       end)
  end.

(** [new ZodError(issues)] *)
Definition ZodError (issues : list ZodIssue) : jsval :=
  Obj {| instanceof_Error := true;
         Exn.name := PStr "ZodError";
         message := PStr (stringify (JArr (issue_json <$> issues)));
         response := None;
         Exn.issues :=
           Some ((λ i, {| path := Some (PStr <$> issue_path i);
                          issue_message := PStr (issue_text i) |}) <$> issues) |}.

(** [schema.parse(data)] *)
Definition parse (schema : ZodObject) (data : gmap string prim)
    : completion (gmap string prim) :=
  let r := parse_shape schema data in
  match r.1 with
  | [] => Return r.2
  | issues => Throw (ZodError issues)
  end.

End Zod.

(** ** Transport and effects *)

(** One call of [this.client.get(url)] or
    [this.client.get(url, { searchParams })]. *)
Record Request : Type := {
  url : string;
  searchParams : option (gmap string prim);
}.

(** The transport: what the call, retries included, and the decoding of
    its body come to. *)
Definition Transport : Type := Request → completion json.

(** Code that may send requests and may throw. *)
Definition IO (A : Type) : Type := Transport → list Request * completion A.

#[global] Instance IO_ret : MRet IO := λ A a _, ([], Return a).
#[global] Instance IO_bind : MBind IO := λ A B f m transport,
  match m transport with
  | (sent, Return a) =>
      let r := f a transport in ((sent ++ r.1)%list, r.2)
  | (sent, Throw e) => (sent, Throw e)
  end.

Definition lift {A} (c : completion A) : IO A := λ _, ([], c).

(** [throw e] *)
Definition throw {A} (e : jsval) : IO A := λ _, ([], Throw e).

(** [try { body } catch (error) { handler }] *)
Definition try_catch {A} (body : IO A) (handler : jsval → IO A) : IO A :=
  λ transport,
    match body transport with
    | (sent, Return a) => (sent, Return a)
    | (sent, Throw error) =>
        let r := handler error transport in ((sent ++ r.1)%list, r.2)
    end.

(** [await (await this.client.get(url, options)).json()] *)
Definition ky_get (url : string) (searchParams : option (gmap string prim))
    : IO json :=
  λ transport,
    let request := {| url := url; searchParams := searchParams |} in
    ([request], transport request).

(** [obj.key] on a plain object: [undefined] when the key is missing. *)
Definition prop (obj : gmap string prim) (key : string) : prim :=
  default PUndefined (obj !! key).

(** ** Operation facade ([class I14YClient]) *)

Module I14YClient.

(** The [catch] clause of every method: [throw this._handleError(error)]. *)
Definition rethrow {A} (error : jsval) : IO A :=
  e ← lift (_handleError error); throw e.

Definition getConcept (conceptId : prim) (includeCodeListEntries : bool)
    : IO json :=
  try_catch
    (if includeCodeListEntries
     then ky_get ("concepts/" +:+ String_ conceptId)
                 (Some {[ "includeCodeListEntries" := PStr "true" ]})
     else ky_get ("concepts/" +:+ String_ conceptId) None)
    rethrow.

Definition getCodeListEntries (conceptId : prim) (params : gmap string prim)
    : IO json :=
  try_catch
    (let searchParams := _buildSearchParams params 1 25 in
     ky_get ("concepts/" +:+ String_ conceptId +:+ "/codelistentries")
            (Some (as_params searchParams)))
    rethrow.

Definition searchConcepts (params : gmap string prim) : IO json :=
  try_catch
    (let searchParams := _buildSearchParams params 1 25 in
     ky_get "concepts" (Some (as_params searchParams)))
    rethrow.

Definition getDataset (datasetId language : prim) : IO json :=
  try_catch
    (if truthy language
     then ky_get ("datasets/" +:+ String_ datasetId)
                 (Some {[ "language" := language ]})
     else ky_get ("datasets/" +:+ String_ datasetId) None)
    rethrow.

Definition searchDatasets (params : gmap string prim) : IO json :=
  try_catch
    (let searchParams := _buildSearchParams params 1 25 in
     ky_get "datasets" (Some (as_params searchParams)))
    rethrow.

Definition getDataService (dataServiceId : prim) : IO json :=
  try_catch (ky_get ("dataservices/" +:+ String_ dataServiceId) None) rethrow.

Definition searchDataServices (params : gmap string prim) : IO json :=
  try_catch
    (let searchParams := _buildSearchParams params 1 25 in
     ky_get "dataservices" (Some (as_params searchParams)))
    rethrow.

Definition getPublicService (publicServiceId : prim) : IO json :=
  try_catch (ky_get ("publicservices/" +:+ String_ publicServiceId) None) rethrow.

Definition searchPublicServices (params : gmap string prim) : IO json :=
  try_catch
    (let searchParams := _buildSearchParams params 1 25 in
     ky_get "publicservices" (Some (as_params searchParams)))
    rethrow.

End I14YClient.

(** ** Tool registry ([src/index.js]) and tool modules *)

Module Server.

Record Tool : Type := {
  name : string;
  description : string;
  schema : Zod.ZodObject;
  handler : gmap string prim → IO Envelope;
}.

(** [server.tool(name, description, schema, handler)]:
    [tools.set(name, {...})] on the registry. *)
Definition tool (name description : string) (schema : Zod.ZodObject)
    (handler : gmap string prim → IO Envelope)
    (tools : gmap string Tool) : gmap string Tool :=
  <[name := {| name := name; description := description;
               schema := schema; handler := handler |}]> tools.

(** The inline error envelope of a [catch] clause:
    [{ content: [{ type: 'text', text: `<prefix>${error.message}` }],
       isError: true }]. *)
Definition error_text (prefix : string) (error : jsval) : IO Envelope :=
  message ← lift (get_message error);
  mret {| content := [ {| type := "text"; text := prefix +:+ String_ message |} ];
          isError := Some true |}.

End Server.

Module Schemas.
Import Zod.

Definition page_schema : ZodType :=
  ZodDefault (ZodNumber [int; min 1]) (PNum 1).

Definition pageSize_schema : ZodType :=
  ZodDefault (ZodNumber [int; min 1; max 100]) (PNum 25).

Definition searchConceptsSchema : ZodObject :=
  [ ("conceptIdentifier", ZodOptional (ZodString []));
    ("publisherIdentifier", ZodOptional (ZodString []));
    ("version", ZodOptional (ZodString []));
    ("publicationLevel", ZodOptional (ZodEnum ["Internal"; "Public"]));
    ("registrationStatus",
      ZodOptional (ZodEnum ["Incomplete"; "Candidate"; "Recorded"; "Qualified";
                            "Standard"; "PreferredStandard"; "Superseded";
                            "Retired"]));
    ("page", page_schema);
    ("pageSize", pageSize_schema) ].

Definition getConceptSchema : ZodObject :=
  [ ("id", ZodString [uuid]) ].

(** The same shape in [src/tools/concept-tools.js] and in
    [src/api/schemas.js], from which [catalog-tools.js] imports it. *)
Definition getCodeListEntriesSchema : ZodObject :=
  [ ("id", ZodString [uuid]);
    ("page", page_schema);
    ("pageSize", pageSize_schema) ].

Definition searchDatasetsSchema : ZodObject :=
  [ ("accessRights", ZodOptional (ZodString []));
    ("datasetIdentifier", ZodOptional (ZodString []));
    ("publisherIdentifier", ZodOptional (ZodString []));
    ("publicationLevel", ZodOptional (ZodString []));
    ("registrationStatus", ZodOptional (ZodString []));
    ("page", page_schema);
    ("pageSize", pageSize_schema) ].

Definition getDatasetSchema : ZodObject :=
  [ ("id", ZodString []);
    ("language", ZodOptional (ZodString [])) ].

Definition searchDataServicesSchema : ZodObject :=
  [ ("accessRights", ZodOptional (ZodString []));
    ("dataServiceIdentifier", ZodOptional (ZodString []));
    ("publisherIdentifier", ZodOptional (ZodString []));
    ("publicationLevel", ZodOptional (ZodString []));
    ("registrationStatus", ZodOptional (ZodString []));
    ("page", page_schema);
    ("pageSize", pageSize_schema) ].

Definition getDataServiceSchema : ZodObject :=
  [ ("id", ZodString [uuid]) ].

Definition searchPublicServicesSchema : ZodObject :=
  [ ("publicServiceIdentifier", ZodOptional (ZodString []));
    ("publisherIdentifier", ZodOptional (ZodString []));
    ("publicationLevel", ZodOptional (ZodString []));
    ("registrationStatus", ZodOptional (ZodString []));
    ("page", page_schema);
    ("pageSize", pageSize_schema) ].

Definition getPublicServiceSchema : ZodObject :=
  [ ("id", ZodString [uuid]) ].

End Schemas.

(** [src/tools/catalog-tools.js] *)
Module CatalogTools.
Import Schemas.

Definition get_code_list_entries (args : gmap string prim) : IO Envelope :=
  try_catch
    (result ← I14YClient.getCodeListEntries (prop args "id")
                (<["pageSize" := prop args "pageSize"]>
                   (<["page" := prop args "page"]> ∅));
     mret {| content := [ {| type := "text"; text := stringify result |} ];
             isError := None |})
    (Server.error_text "Error getting code list entries: ").

Definition registerCatalogTools (server : gmap string Server.Tool)
    : gmap string Server.Tool :=
  Server.tool "get_code_list_entries" "Get entries from a code list concept"
    getCodeListEntriesSchema get_code_list_entries server.

End CatalogTools.

(** [src/tools/concept-tools.js] *)
Module ConceptTools.
Import Schemas.

Definition searchConcepts (args : gmap string prim) : IO Envelope :=
  try_catch
    (params ← lift (Zod.parse searchConceptsSchema args);
     result ← I14YClient.searchConcepts params;
     mret (formatSuccess result))
    (Server.error_text "Error searching concepts: ").

Definition getConcept (args : gmap string prim) : IO Envelope :=
  try_catch
    (parsed ← lift (Zod.parse getConceptSchema args);
     let id := prop parsed "id" in
     result ← I14YClient.getConcept id false;
     mret (formatSuccess result))
    (Server.error_text "Error getting concept: ").

(** "Internally calls getConcept(id, true) to include code list entries." *)
Definition getCodeListEntries (args : gmap string prim) : IO Envelope :=
  try_catch
    (parsed ← lift (Zod.parse getCodeListEntriesSchema args);
     let id := prop parsed "id" in
     result ← I14YClient.getConcept id true;
     mret (formatSuccess result))
    (Server.error_text "Error getting code list entries: ").

Definition registerConceptTools (server : gmap string Server.Tool)
    : gmap string Server.Tool :=
  let server :=
    Server.tool "search_concepts"
      "Search for concepts in the I14Y Interoperability Platform"
      searchConceptsSchema searchConcepts server in
  let server :=
    Server.tool "get_concept"
      "Get detailed information about a specific concept by ID"
      getConceptSchema getConcept server in
  Server.tool "get_code_list_entries" "Get entries from a code list concept"
    getCodeListEntriesSchema getCodeListEntries server.

End ConceptTools.

(** [src/tools/dataset-tools.js] *)
Module DatasetTools.
Import Schemas.

Definition searchDatasets (args : gmap string prim) : IO Envelope :=
  try_catch
    (params ← lift (Zod.parse searchDatasetsSchema args);
     result ← I14YClient.searchDatasets params;
     mret (formatSuccess result))
    (λ error, mret (formatError error)).

Definition getDataset (args : gmap string prim) : IO Envelope :=
  try_catch
    (parsed ← lift (Zod.parse getDatasetSchema args);
     let id := prop parsed "id" in
     let language := prop parsed "language" in
     result ← I14YClient.getDataset id language;
     mret (formatSuccess result))
    (λ error, mret (formatError error)).

Definition registerDatasetTools (server : gmap string Server.Tool)
    : gmap string Server.Tool :=
  let server :=
    Server.tool "search_datasets"
      "Search for datasets in the I14Y Interoperability Platform"
      searchDatasetsSchema searchDatasets server in
  Server.tool "get_dataset"
    "Get detailed information about a specific dataset by ID"
    getDatasetSchema getDataset server.

End DatasetTools.

(** [src/tools/data-service-tools.js] *)
Module DataServiceTools.
Import Schemas.

Definition searchDataServices (args : gmap string prim) : IO Envelope :=
  try_catch
    (params ← lift (Zod.parse searchDataServicesSchema args);
     result ← I14YClient.searchDataServices params;
     mret (formatSuccess result))
    (Server.error_text "Error: ").

Definition getDataService (args : gmap string prim) : IO Envelope :=
  try_catch
    (parsed ← lift (Zod.parse getDataServiceSchema args);
     let id := prop parsed "id" in
     result ← I14YClient.getDataService id;
     mret (formatSuccess result))
    (Server.error_text "Error: ").

Definition registerDataServiceTools (server : gmap string Server.Tool)
    : gmap string Server.Tool :=
  let server :=
    Server.tool "search_data_services"
      "Search for data services (APIs) in the I14Y Interoperability Platform"
      searchDataServicesSchema searchDataServices server in
  Server.tool "get_data_service"
    "Get detailed information about a specific data service by ID"
    getDataServiceSchema getDataService server.

End DataServiceTools.

(** [src/tools/public-service-tools.js] *)
Module PublicServiceTools.
Import Schemas.

Definition searchPublicServices (args : gmap string prim) : IO Envelope :=
  try_catch
    (params ← lift (Zod.parse searchPublicServicesSchema args);
     result ← I14YClient.searchPublicServices params;
     mret (formatSuccess result))
    (Server.error_text "Error: ").

Definition getPublicService (args : gmap string prim) : IO Envelope :=
  try_catch
    (parsed ← lift (Zod.parse getPublicServiceSchema args);
     let id := prop parsed "id" in
     result ← I14YClient.getPublicService id;
     mret (formatSuccess result))
    (Server.error_text "Error: ").

Definition registerPublicServiceTools (server : gmap string Server.Tool)
    : gmap string Server.Tool :=
  let server :=
    Server.tool "search_public_services"
      "Search for public services in the I14Y Interoperability Platform"
      searchPublicServicesSchema searchPublicServices server in
  Server.tool "get_public_service"
    "Get detailed information about a specific public service by ID"
    getPublicServiceSchema getPublicService server.

End PublicServiceTools.

(** ** Dispatch ([src/index.js]) *)

(** The registry after the five registration calls, in the order of the
    source: catalog, concept, dataset, data service, public service. *)
Definition tools : gmap string Server.Tool :=
  let server := ∅ in
  let server := CatalogTools.registerCatalogTools server in
  let server := ConceptTools.registerConceptTools server in
  let server := DatasetTools.registerDatasetTools server in
  let server := DataServiceTools.registerDataServiceTools server in
  let server := PublicServiceTools.registerPublicServiceTools server in
  server.

(** The [CallToolRequestSchema] handler, on [request.params.name] and
    [request.params.arguments]. *)
Definition CallTool (name : string) (args : gmap string prim) : IO Envelope :=
  match tools !! name with
  | None => throw (new_Error ("Unknown tool: " +:+ name))
  | Some tool =>
      try_catch
        (validatedArgs ← lift (Zod.parse (Server.schema tool) args);
         result ← Server.handler tool validatedArgs;
         mret result)
        (Server.error_text ("Error executing " +:+ name +:+ ": "))
  end.

(** ** Vocabulary of the specification *)

(** "null, undefined, or the empty string": the values the canonicalizer
    drops. *)
Definition dropped (value : prim) : Prop :=
  value = PNull ∨ value = PUndefined ∨ value = PStr "".

(** The canonical message of the error normalizer for status [s] and a
    diagnostic suffix of its table. *)
Definition canonical_message (s : Z) (suffix : string) : string :=
  "API request failed with status " +:+ String_ (PNum s) +:+ ": " +:+ suffix.

(** [normalize(err)] is a new [Error] with the canonical message, which
    contains [String(s)] and the suffix. *)
Definition normalized_to (err : jsval) (s : Z) (suffix : string) : Prop :=
  _handleError err = Return (new_Error (canonical_message s suffix)) ∧
  contains (canonical_message s suffix) (String_ (PNum s)) ∧
  contains (canonical_message s suffix) suffix.

(** ** Sample values, after the repository's tests *)

(** [const error = new Error(message); error.response = { status }] *)
Definition http_error (msg : string) (s : Z) : Object :=
  {| instanceof_Error := true; name := PStr "Error"; message := PStr msg;
     response := Some {| status := s |}; issues := None |}.

(** [new Error(message)], as an object record. *)
Definition plain_error (msg : string) : Object :=
  {| instanceof_Error := true; name := PStr "Error"; message := PStr msg;
     response := None; issues := None |}.

(** [{}]: a plain object with no [message] and no [response]. *)
Definition empty_object : Object :=
  {| instanceof_Error := false; name := PUndefined; message := PUndefined;
     response := None; issues := None |}.

(** A numeral starts with a digit or with the minus sign. *)
Definition numeral_start (s : string) : Prop :=
  ∃ c r, s = String c r ∧
         (c = "-"%char ∨ (48 <= N_of_ascii c <= 57)%N).

(** What a value contributes to the query: its string when it is kept. *)
Definition entry_of (value : prim) : option string :=
  if provided value then Some (String_ value) else None.


(** [{ content: [{ type: "text", text }], isError }], with [isError]
    left out for [None]. *)
Definition text_envelope (text : string) (flag : option bool) : Envelope :=
  {| content := [ {| type := "text"; text := text |} ]; isError := flag |}.


(** A handler, run on validated arguments, sends one request and answers
    with a text envelope that is flagged exactly when the request failed. *)
Definition handler_ok (schema : Zod.ZodObject)
    (handler : gmap string prim → IO Envelope) : Prop :=
  ∀ validated transport,
    Zod.parse schema validated = Return validated →
    ∃ request text flag,
      handler validated transport =
        ([request], Return (text_envelope text flag)) ∧
      match transport request with
      | Return _ => flag = None
      | Throw _ => flag = Some true
      end.

(** A transport that answers every request with [body]. *)
Definition answering (body : json) : Transport := λ _, Return body.

(** A transport on which every request fails with [error]. *)
Definition failing (error : jsval) : Transport := λ _, Throw error.

(** What zod reports for [{ page: 0 }]: the message of the [ZodError]. *)
Definition page_too_small_message : string :=
  stringify (JArr [Zod.issue_json (Zod.too_small 1 ["page"])]).

(** ** Display helpers ([src/utils/formatting.js])

    A registry object shown to the user is seen through the properties
    the formatters read. A multilingual text is an object from language
    codes to texts, or is missing ([null] or [undefined]); its
    properties are listed in the order [Object.values] enumerates them. *)

Module Display.
Import Pagination.

(** [obj[key]]: the value of the first property named [key], or
    [undefined]. *)
Fixpoint get_prop (props : list (string * prim)) (key : string) : prim :=
  match props with
  | [] => PUndefined
  | (k, v) :: rest => if String.eqb k key then v else get_prop rest key
  end.

(** The loop [for (const lang of fallbackOrder) if (textObject[lang])
    return textObject[lang]]: the first truthy text, if the loop returns. *)
Fixpoint first_available (props : list (string * prim)) (langs : list string)
    : option prim :=
  match langs with
  | [] => None
  | lang :: rest =>
      if truthy (get_prop props lang) then Some (get_prop props lang)
      else first_available props rest
  end.

Definition fallbackOrder : list string := ["de"; "en"; "fr"; "it"; "rm"].

(** [Object.values(textObject)[0]] *)
Definition first_value (props : list (string * prim)) : prim :=
  match props with
  | [] => PUndefined
  | (_, v) :: _ => v
  end.

Definition formatMultilingualText (textObject : option (list (string * prim)))
    (preferredLanguage : string) : prim :=
  match textObject with
  | None => PStr ""
  | Some props =>
      (* Try preferred language first *)
      if truthy (get_prop props preferredLanguage)
      then get_prop props preferredLanguage
      else
        (* Fallback order: de, en, fr, it, rm *)
        match first_available props fallbackOrder with
        | Some text => text
        | None =>
            (* Return first available value *)
            or_else (first_value props) (PStr "")
        end
  end.

(** [text.substring(0, end)], with a negative [end] read as 0. *)
Definition substring_to (end_ : Z) (text : string) : string :=
  String.substring 0 (Z.to_nat end_) text.

(** [truncateText(text, maxLength)]. A truthy [text] that is not a string
    has no [length] and no [substring]: the call of [text.substring]
    raises. *)
Definition truncateText (text : prim) (maxLength : Z) : completion prim :=
  if negb (truthy text) then Return text
  else
    match text with
    | PStr s =>
        if Z.of_nat (String.length s) <=? maxLength then Return text
        else Return (PStr (substring_to (maxLength - 3) s +:+ "..."))
    | _ =>
        Throw (Obj {| instanceof_Error := true; Exn.name := PStr "TypeError";
                      message := PStr "text.substring is not a function";
                      response := None; issues := None |})
    end.


(** The pagination object [formatListResponse] reads. *)
Record ListPagination : Type := {
  list_page : Z;
  limit : Z;
  total : Z;
}.

Definition formatListResponse {A} (items : list A) (formatter : A → string)
    (pagination : option ListPagination) : string :=
  match items with
  | [] => "No items found"
  | _ =>
      let result := join (newline +:+ newline) (List.map formatter items) in
      match pagination with
      | Some p =>
          let result :=
            result +:+ (newline +:+ newline +:+ "Page " +:+
              String_ (PNum (list_page p)) +:+ " of " +:+
              String_ (PNum (Math_ceil (inject_Z (total p) / inject_Z (limit p))%Q))) in
          result +:+ (newline +:+ "Total: " +:+ String_ (PNum (total p)))
      | None =>
          (* If no pagination info, just show the count of items *)
          result +:+ (newline +:+ newline +:+ "Total: " +:+
                      String_ (PNum (Z.of_nat (length items))))
      end
  end.

(** A concept, through the properties [formatConceptResult] reads. *)
Record Concept : Type := {
  concept_identifier : prim;
  concept_id : prim;
  concept_title : option (list (string * prim));
  concept_description : option (list (string * prim));
  registrationStatus : prim;
  publicationLevel : prim;
}.

(** [if (cond) parts.push(line)] *)
Definition push_if (cond : bool) (line : string) (parts : list string)
    : list string :=
  if cond then (parts ++ [line])%list else parts.

(** The two steps [if (obj.title) { const title =
    formatMultilingualText(obj.title); if (title) parts.push(...) }]. *)
Definition push_text (label : string) (textObject : option (list (string * prim)))
    (parts : list string) : list string :=
  match textObject with
  | None => parts
  | Some _ =>
      let text := formatMultilingualText textObject "de" in
      push_if (truthy text) (label +:+ String_ text) parts
  end.

Definition formatConceptResult (concept : option Concept) : string :=
  match concept with
  | None => "No concept data"
  | Some concept =>
      let parts :=
        [ "Concept ID: " +:+
          String_ (or_else (concept_identifier concept) (concept_id concept)) ] in
      let parts := push_text "Title: " (concept_title concept) parts in
      let parts := push_text "Description: " (concept_description concept) parts in
      let parts :=
        push_if (truthy (registrationStatus concept))
          ("Status: " +:+ String_ (registrationStatus concept)) parts in
      let parts :=
        push_if (truthy (publicationLevel concept))
          ("Publication Level: " +:+ String_ (publicationLevel concept)) parts in
      join newline parts
  end.

End Display.

(** ** The rest of the client ([src/api/i14y-client.js]) *)

Module Client.
Import I14YClient.

Definition getDatasetStructure (datasetId language : prim) : IO json :=
  try_catch
    (if truthy language
     then ky_get ("datasets/" +:+ String_ datasetId +:+ "/structure")
                 (Some {[ "language" := language ]})
     else
       (* Call with single argument (no options) to satisfy test expectations *)
       ky_get ("datasets/" +:+ String_ datasetId +:+ "/structure") None)
    rethrow.

(** The methods of the facade that send a request, as one type. *)
Inductive Call : Type :=
  | call_getConcept (conceptId : prim) (includeCodeListEntries : bool)
  | call_getCodeListEntries (conceptId : prim) (params : gmap string prim)
  | call_searchConcepts (params : gmap string prim)
  | call_getDataset (datasetId language : prim)
  | call_searchDatasets (params : gmap string prim)
  | call_getDatasetStructure (datasetId language : prim)
  | call_getDataService (dataServiceId : prim)
  | call_searchDataServices (params : gmap string prim)
  | call_getPublicService (publicServiceId : prim)
  | call_searchPublicServices (params : gmap string prim).

Definition run (c : Call) : IO json :=
  match c with
  | call_getConcept conceptId includeCodeListEntries =>
      getConcept conceptId includeCodeListEntries
  | call_getCodeListEntries conceptId params =>
      getCodeListEntries conceptId params
  | call_searchConcepts params => searchConcepts params
  | call_getDataset datasetId language => getDataset datasetId language
  | call_searchDatasets params => searchDatasets params
  | call_getDatasetStructure datasetId language =>
      getDatasetStructure datasetId language
  | call_getDataService dataServiceId => getDataService dataServiceId
  | call_searchDataServices params => searchDataServices params
  | call_getPublicService publicServiceId => getPublicService publicServiceId
  | call_searchPublicServices params => searchPublicServices params
  end.

(** The methods that canonicalize a parameter object into the query. *)
Definition paginated (c : Call) : bool :=
  match c with
  | call_getCodeListEntries _ _ | call_searchConcepts _ | call_searchDatasets _
  | call_searchDataServices _ | call_searchPublicServices _ => true
  | _ => false
  end.

(** What the constructor leaves in the object: the base URL and the
    options given to [ky.create]. *)
Record Instance : Type := {
  baseUrl : prim;
  timeout : Z;
  retry_limit : Z;
  retry_methods : list string;
  retry_statusCodes : list Z;
}.

(** [new I14YClient(baseUrl)], with [config.apiBaseUrl] for the default
    of the parameter. *)
Definition constructor (config_apiBaseUrl baseUrl : prim) : completion Instance :=
  let baseUrl :=
    match baseUrl with
    | PUndefined => config_apiBaseUrl
    | _ => baseUrl
    end in
  if negb (truthy baseUrl) then Throw (new_Error "Base URL is required")
  else Return {| baseUrl := baseUrl;
                 timeout := 30000;
                 retry_limit := 2;
                 retry_methods := ["get"];
                 retry_statusCodes := [408; 413; 429; 500; 502; 503; 504] |}.



End Client.

(** ** Configuration ([src/config.js]) *)

Module Config.

(** [process.env.NAME]: a string, or [undefined]. *)
Definition env_get (env : gmap string string) (name : string) : prim :=
  match env !! name with
  | Some value => PStr value
  | None => PUndefined
  end.

Definition is_space (c : ascii) : bool :=
  let n := N_of_ascii c in ((9 <=? n) && (n <=? 13) || (n =? 32))%N.

Definition is_digit (c : ascii) : bool :=
  let n := N_of_ascii c in ((48 <=? n) && (n <=? 57))%N.

Fixpoint skip_spaces (s : string) : string :=
  match s with
  | String c r => if is_space c then skip_spaces r else s
  | EmptyString => s
  end.

(** The longest prefix of decimal digits. *)
Fixpoint digits_of (s : string) : string :=
  match s with
  | String c r => if is_digit c then String c (digits_of r) else ""
  | EmptyString => ""
  end.

(** The number part of [parseInt]: the value of the longest run of
    digits at the start of [s], with the sign read before it; [None] is
    [NaN], when there is no digit. *)
Definition read_digits (sign : Z) (s : string) : option Z :=
  let digits := digits_of s in
  match digits with
  | EmptyString => None
  | _ =>
      match NilEmpty.uint_of_string digits with
      | Some d => Some (sign * Z.of_uint d)
      | None => None
      end
  end.

(** [parseInt(s, 10)] on a string of ASCII characters: leading blanks are
    skipped, a sign is read, then the longest run of digits; [None] is
    [NaN]. The value is exact. *)
Definition parseInt (s : string) : option Z :=
  let s := skip_spaces s in
  let signed :=
    match s with
    | String c r =>
        if Ascii.eqb c "-"%char then (-1, r)
        else if Ascii.eqb c "+"%char then (1, r)
        else (1, s)
    | EmptyString => (1, s)
    end in
  read_digits signed.1 signed.2.

Record Settings : Type := {
  apiBaseUrl : prim;
  apiToken : string;
  apiTimeout : option Z;
  defaultLanguage : string;
  defaultPageSize : option Z;
  maxPageSize : option Z;
  logLevel : string;
}.

(** [process.env.NAME || fallback] *)
Definition env_or (env : gmap string string) (name fallback : string) : string :=
  String_ (or_else (env_get env name) (PStr fallback)).

(** The module body: it throws, or exports [config]. [env] is
    [process.env] once dotenv has run. *)
Definition load (env : gmap string string) : completion Settings :=
  let apiBaseUrl := env_get env "I14Y_API_BASE_URL" in
  if negb (truthy apiBaseUrl) &&
     negb (strict_eq (env_get env "NODE_ENV") (PStr "test"))
  then Throw (new_Error "I14Y_API_BASE_URL is required")
  else
    Return {| apiBaseUrl := apiBaseUrl;
              apiToken := env_or env "I14Y_API_TOKEN" "";
              apiTimeout := parseInt (env_or env "I14Y_API_TIMEOUT" "30000");
              defaultLanguage := env_or env "I14Y_DEFAULT_LANGUAGE" "de";
              defaultPageSize :=
                parseInt (env_or env "I14Y_DEFAULT_PAGE_SIZE" "20");
              maxPageSize := parseInt (env_or env "I14Y_MAX_PAGE_SIZE" "100");
              logLevel := env_or env "LOG_LEVEL" "info" |}.

Definition validateConfig (config : Settings) : completion unit :=
  let errors : list string := [] in
  let errors :=
    if negb (truthy (apiBaseUrl config))
    then (errors ++ ["I14Y_API_BASE_URL is required"])%list
    else errors in
  if (0 <? Z.of_nat (length errors))
  then Throw (new_Error ("Configuration errors:" +:+ newline +:+
                         join newline errors))
  else Return tt.

End Config.

(** ** Vocabulary of the further properties *)

(** What a method of the client rejects with when the transport fails
    with [e]: [throw this._handleError(e)] throws the normalized error,
    or what the normalizer itself raised. *)
Definition rejection (e : jsval) : jsval :=
  match _handleError e with
  | Return e' => e'
  | Throw e' => e'
  end.

(** An [Error] named "ValidationError" that carries an array of issues:
    the errors [formatError] renders issue by issue. *)
Definition validation_error (o : Object) (issues_ : list Issue) : Prop :=
  instanceof_Error o = true ∧
  name o = PStr "ValidationError" ∧
  issues o = Some issues_.

(** One line of that rendering: [`${path}: ${issue.message}`]. *)
Definition issue_line (issue : Issue) : string :=
  match path issue with
  | Some p => Array_join "." p
  | None => "unknown"
  end +:+ ": " +:+ String_ (issue_message issue).

(** * Properties *)

(** ** Strings and numerals *)

Section StringFacts.

Lemma prefix_append (p r : string) : String.prefix p (p +:+ r) = true.
Proof.
  induction p as [|c p IH]; simpl.
  - by destruct r.
  - destruct (ascii_dec c c); [exact IH | done].
Qed.

Lemma prefix_split (p s : string) :
  String.prefix p s = true → ∃ r, s = p +:+ r.
Proof.
  revert s. induction p as [|c p IH]; intros s H.
  - by exists s.
  - destruct s as [|d s]; simpl in H; [done|].
    destruct (ascii_dec c d) as [->|]; [|done].
    destruct (IH _ H) as [r ->]. by exists r.
Qed.

Lemma includes_contains (sub s : string) :
  includes sub s = true ↔ contains s sub.
Proof.
  split.
  - induction s as [|c s IH]; cbn [includes]; intros H.
    + apply orb_true_iff in H as [H|H]; [|done].
      destruct (prefix_split _ _ H) as [r Hr]. exists "", r. exact Hr.
    + apply orb_true_iff in H as [H|H].
      * destruct (prefix_split _ _ H) as [r Hr]. exists "", r. exact Hr.
      * destruct (IH H) as (pre & post & ->). by exists (String c pre), post.
  - intros (pre & post & ->).
    induction pre as [|c pre IH].
    + change ("" +:+ sub +:+ post) with (sub +:+ post).
      destruct (sub +:+ post) eqn:E; cbn [includes]; rewrite <- E;
        by rewrite prefix_append.
    + change (String c pre +:+ sub +:+ post)
        with (String c (pre +:+ sub +:+ post)).
      cbn [includes]. rewrite IH. apply orb_true_r.
Qed.

Lemma not_contains (sub s : string) :
  includes sub s = false → ¬ contains s sub.
Proof.
  intros H Hc. apply includes_contains in Hc. congruence.
Qed.

Lemma contains_middle (pre sub post : string) :
  contains (pre +:+ sub +:+ post) sub.
Proof. by exists pre, post. Qed.

Lemma append_empty_r (s : string) : s +:+ "" = s.
Proof.
  induction s as [|c s IH]; [done|].
  change (String c (s +:+ "") = String c s). by rewrite IH.
Qed.

Lemma contains_suffix (pre sub : string) : contains (pre +:+ sub) sub.
Proof. exists pre, "". by rewrite append_empty_r. Qed.

Lemma string_of_uint_start (d : Decimal.uint) :
  d ≠ Decimal.Nil → numeral_start (NilEmpty.string_of_uint d).
Proof.
  destruct d; [done | ..]; intros _; simpl;
    eexists _, _; (split; [reflexivity | right; simpl; lia]).
Qed.

Lemma Number_toString_start (n : Z) : numeral_start (Number_toString n).
Proof.
  unfold Number_toString. destruct n as [|p|p]; simpl.
  - eexists _, _. split; [reflexivity | right; simpl; lia].
  - unfold NilZero.string_of_uint.
    pose proof (DecimalPos.Unsigned.to_uint_nonnil p) as Hp.
    destruct (Pos.to_uint p) eqn:E; [done | ..];
      apply string_of_uint_start; done.
  - eexists _, _. split; [reflexivity | by left].
Qed.

Lemma Number_toString_nonempty (n : Z) : Number_toString n ≠ "".
Proof. destruct (Number_toString_start n) as (c & r & -> & _). done. Qed.


End StringFacts.

(** ** Error normalizer *)

Section Normalizer.

Lemma canonical_message_contains (s : Z) (suffix : string) :
  contains (canonical_message s suffix) (String_ (PNum s)) ∧
  contains (canonical_message s suffix) suffix.
Proof.
  split.
  - apply contains_middle.
  - unfold canonical_message.
    exists ("API request failed with status " +:+ String_ (PNum s) +:+ ": "), "".
    rewrite append_empty_r.
    generalize (String_ (PNum s)). intros n.
    change ("API request failed with status " +:+ n +:+ ": " +:+ suffix)
      with ("API request failed with status " +:+ (n +:+ ": " +:+ suffix)).
    change (("API request failed with status " +:+ n +:+ ": ") +:+ suffix)
      with ("API request failed with status " +:+ ((n +:+ ": ") +:+ suffix)).
    f_equal. induction n as [|c n IH]; [done|].
    change (String c (n +:+ ": " +:+ suffix) = String c ((n +:+ ": ") +:+ suffix)).
    by rewrite IH.
Qed.

(** What [_handleError] does to an object that carries a response. *)
Lemma handleError_with_response (o : Object) (s : Z) :
  response o = Some {| status := s |} →
  _handleError (Obj o) =
    if s =? 400 then
      Return (new_Error (canonical_message s "Bad Request - Invalid parameters"))
    else if s =? 401 then Return (new_Error (canonical_message s "Unauthorized"))
    else if s =? 403 then Return (new_Error (canonical_message s "Forbidden"))
    else if s =? 404 then
      Return (new_Error (canonical_message s "Resource not found"))
    else if s >=? 500 then Return (new_Error (canonical_message s "Server error"))
    else Return (Obj o).
Proof.
  intros Hr. unfold _handleError. cbn [get_message get_response mbind completion_bind].
  rewrite Hr. destruct (truthy (message o)); reflexivity.
Qed.

(** What [_handleError] does to an object without a response. *)
Lemma handleError_without_response (o : Object) :
  response o = None → _handleError (Obj o) = Return (Obj o).
Proof.
  intros Hr. unfold _handleError. cbn [get_message get_response mbind completion_bind].
  rewrite Hr. destruct (truthy (message o)); reflexivity.
Qed.

(** C1 (amended). For an error object [err] whose [response.status] is
    [s], [_handleError] returns a new [Error] whose message contains
    [String(s)] and the suffix of the table: "Bad Request - Invalid
    parameters" for 400, "Unauthorized" for 401, "Forbidden" for 403,
    "Resource not found" for 404 and "Server error" for every [s >= 500].
    For every other status it returns [err] itself, with the message [err]
    already had; no generic message is made. *)
Theorem handleError_status_table (o : Object) (s : Z) :
  response o = Some {| status := s |} →
  (s = 400 → normalized_to (Obj o) s "Bad Request - Invalid parameters") ∧
  (s = 401 → normalized_to (Obj o) s "Unauthorized") ∧
  (s = 403 → normalized_to (Obj o) s "Forbidden") ∧
  (s = 404 → normalized_to (Obj o) s "Resource not found") ∧
  (500 ≤ s → normalized_to (Obj o) s "Server error") ∧
  (s ≠ 400 → s ≠ 401 → s ≠ 403 → s ≠ 404 → s < 500 →
   _handleError (Obj o) = Return (Obj o)).
Proof.
  intros Hr. pose proof (handleError_with_response o s Hr) as H.
  unfold normalized_to.
  repeat split; intros; try apply canonical_message_contains;
    rewrite H; subst; try reflexivity.
  - destruct (Z.eqb_spec s 400), (Z.eqb_spec s 401), (Z.eqb_spec s 403),
      (Z.eqb_spec s 404); try lia.
    destruct (Z.geb_spec s 500); [reflexivity | lia].
  - destruct (Z.eqb_spec s 400), (Z.eqb_spec s 401), (Z.eqb_spec s 403),
      (Z.eqb_spec s 404); try lia.
    destruct (Z.geb_spec s 500); [lia | reflexivity].
Qed.

Lemma handleError_status_table_witness :
  response (http_error "Not Found" 404) = Some {| status := 404 |} ∧
  normalized_to (Obj (http_error "Not Found" 404)) 404 "Resource not found".
Proof.
  split; [reflexivity|].
  apply (handleError_status_table (http_error "Not Found" 404) 404);
    reflexivity.
Defined.

(** C1 as stated fails on a status outside the table: the error of the
    client test "should handle rate limiting" comes back as it went in,
    and its message holds neither "429" nor the generic text. *)
Lemma handleError_other_status_counterexample :
  _handleError (Obj (http_error "Too Many Requests" 429)) =
    Return (Obj (http_error "Too Many Requests" 429)) ∧
  ¬ contains (String_ (message (http_error "Too Many Requests" 429)))
      (String_ (PNum 429)) ∧
  ¬ contains (String_ (message (http_error "Too Many Requests" 429)))
      "API request failed with status 429".
Proof.
  split; [reflexivity|]. split; apply not_contains; reflexivity.
Qed.

(** C7. An error value with a non-empty message and no upstream response
    comes back from [_handleError] unchanged: the result is the argument
    itself. *)
Theorem handleError_passthrough (err : jsval) (msg : prim) :
  get_message err = Return msg →
  truthy msg = true →
  get_response err = Return None →
  _handleError err = Return err.
Proof.
  intros Hm Ht Hr. destruct err as [p|o].
  - destruct p; simpl in Hm; simplify_eq; discriminate Ht.
  - simpl in Hr. apply handleError_without_response. congruence.
Qed.

Lemma handleError_passthrough_witness :
  _handleError (Obj (plain_error "Network error")) =
    Return (Obj (plain_error "Network error")).
Proof.
  apply (handleError_passthrough (Obj (plain_error "Network error"))
           (PStr "Network error")); reflexivity.
Defined.

(** C8 as stated fails on [null]: reading [error.message] raises a
    [TypeError], so nothing is returned. *)
Lemma handleError_null_counterexample :
  _handleError (Prim PNull) = Throw (TypeError_read PNull "message") ∧
  ¬ ∃ v, _handleError (Prim PNull) = Return v.
Proof.
  split; [reflexivity|]. intros [v Hv]. discriminate Hv.
Qed.

(** C8 (amended). [_handleError] returns a value, without raising, for
    every input other than [null] and [undefined]: plain strings and plain
    objects without [message] or [response] included. *)
Theorem handleError_returns (err : jsval) :
  err ≠ Prim PNull →
  err ≠ Prim PUndefined →
  ∃ v, _handleError err = Return v.
Proof.
  intros Hn Hu. destruct err as [p|o].
  - destruct p; try done; eexists; reflexivity.
  - destruct (response o) as [[s]|] eqn:Hr.
    + rewrite (handleError_with_response o s Hr).
      repeat case_match; eexists; reflexivity.
    + rewrite (handleError_without_response o Hr). eexists; reflexivity.
Qed.

Lemma handleError_returns_witness :
  ∃ v, _handleError (Prim (PStr "boom")) = Return v.
Proof.
  apply (handleError_returns (Prim (PStr "boom"))); discriminate.
Defined.

(** The inputs C8 names, one by one. *)
Lemma handleError_on_named_inputs (s : string) :
  _handleError (Prim (PStr s)) = Return (Prim (PStr s)) ∧
  _handleError (Obj empty_object) = Return (Obj empty_object) ∧
  _handleError (Prim PUndefined) = Throw (TypeError_read PUndefined "message").
Proof. repeat split. Qed.

(** Whatever [_handleError] hands on, returned or thrown, has a readable
    [message] property: it is never [null] or [undefined]. *)
Lemma handleError_result_readable (err : jsval) :
  ∃ e m, (_handleError err = Return e ∨ _handleError err = Throw e) ∧
         get_message e = Return m.
Proof.
  destruct err as [p|o].
  - destruct p; eexists _, _; (split; [first [left; reflexivity | right; reflexivity] | reflexivity]).
  - destruct (response o) as [[s]|] eqn:Hr.
    + rewrite (handleError_with_response o s Hr).
      repeat case_match; eexists _, _; (split; [left; reflexivity | reflexivity]).
    + rewrite (handleError_without_response o Hr).
      eexists _, _; (split; [left; reflexivity | reflexivity]).
Qed.

End Normalizer.

(** ** Parameter canonicalizer *)

Section Canonicalizer.

Implicit Types (params : gmap string prim) (value : prim) (key : string).

Lemma provided_dropped value : provided value = false ↔ dropped value.
Proof.
  unfold dropped. split.
  - destruct value as [| |b|n|s]; try (by auto); try discriminate.
    destruct s; [auto | discriminate].
  - by intros [->|[->| ->]].
Qed.


Lemma provided_nonempty value : provided value = true → String_ value ≠ "".
Proof.
  destruct value as [| |[]|n|s]; try done.
  - intros _. apply Number_toString_nonempty.
  - by destruct s.
Qed.

(** The loop over [Object.entries(params)] sets exactly the kept entries. *)
Lemma forEach_lookup params key :
  map_fold add_param ∅ params !! key = params !! key ≫= entry_of.
Proof.
  revert key.
  apply (map_fold_weak_ind
           (λ r m, ∀ key, r !! key = m !! key ≫= entry_of)).
  - intros key. by rewrite !lookup_empty.
  - intros i x m r Hi IH key. unfold add_param.
    destruct (decide (i = key)) as [->|Hne].
    + rewrite lookup_insert_eq. simpl. unfold entry_of.
      destruct (provided x); [by rewrite lookup_insert_eq|].
      by rewrite IH, Hi.
    + rewrite (lookup_insert_ne m) by done.
      destruct (provided x); [rewrite lookup_insert_ne by done|]; apply IH.
Qed.

Lemma entry_of_nonempty value s : entry_of value = Some s → s ≠ "".
Proof.
  unfold entry_of. destruct (provided value) eqn:E; [|done].
  intros [= <-]. by apply provided_nonempty.
Qed.

Lemma lacks_None (q : gmap string string) key :
  (∀ s, q !! key = Some s → s ≠ "") →
  lacks q key = bool_decide (q !! key = None).
Proof.
  intros H. unfold lacks. destruct (q !! key) as [s|] eqn:E; [|done].
  specialize (H s eq_refl). simpl. destruct s; done.
Qed.

(** The query as a function of the key. *)
Lemma buildSearchParams_lookup params (defaultPage defaultPageSize : Z) key :
  _buildSearchParams params defaultPage defaultPageSize !! key =
    match params !! key ≫= entry_of with
    | Some s => Some s
    | None =>
        if decide (key = "page") then Some (String_ (PNum defaultPage))
        else if decide (key = "pageSize") then Some (String_ (PNum defaultPageSize))
        else None
    end.
Proof.
  unfold _buildSearchParams.
  set (q := map_fold add_param ∅ params).
  assert (Hq : ∀ k, q !! k = params !! k ≫= entry_of)
    by (intros; apply forEach_lookup).
  assert (Hne : ∀ k s, q !! k = Some s → s ≠ "").
  { intros k s. rewrite Hq. destruct (params !! k); simpl; [|done].
    apply entry_of_nonempty. }
  rewrite (lacks_None q "page") by apply Hne.
  set (q1 := if bool_decide (q !! "page" = None) then _ else q).
  assert (Hq1 : ∀ k, k ≠ "page" → q1 !! k = q !! k).
  { intros k Hk. unfold q1. case_bool_decide; [by rewrite lookup_insert_ne|done]. }
  assert (Hne1 : ∀ s, q1 !! "pageSize" = Some s → s ≠ "").
  { intros s. rewrite Hq1 by done. apply Hne. }
  rewrite (lacks_None q1 "pageSize") by apply Hne1.
  rewrite <- Hq.
  destruct (decide (key = "pageSize")) as [->|Hps].
  - rewrite (Hq1 "pageSize") by done.
    case_bool_decide as E.
    + rewrite lookup_insert_eq, E. by rewrite decide_False by done.
    + rewrite Hq1 by done. destruct (q !! "pageSize"); done.
  - assert (Hgoal : q1 !! key =
      match q !! key with
      | Some s => Some s
      | None => if decide (key = "page")
                then Some (String_ (PNum defaultPage)) else None
      end).
    { unfold q1. case_bool_decide as E.
      - destruct (decide (key = "page")) as [->|Hp].
        + by rewrite lookup_insert_eq, E.
        + rewrite lookup_insert_ne by done. by destruct (q !! key).
      - destruct (decide (key = "page")) as [->|Hp].
        + by destruct (q !! "page").
        + by destruct (q !! key). }
    case_bool_decide; [rewrite lookup_insert_ne by done|]; rewrite Hgoal;
      destruct (q !! key); try done; by destruct (decide (key = "page")).
Qed.









End Canonicalizer.

(** ** Pagination metadata *)

Section PaginationFacts.
Import Pagination.




End PaginationFacts.

(** ** Request validation *)

Section Validation.
Import Zod.

Implicit Types (t : ZodType) (data : gmap string prim).

(** A defined input is handed on as it is. *)
Lemma parse_output t path (d : prim) :
  d ≠ PUndefined → (_parse t path d).2 = d.
Proof.
  induction t as [checks|checks|values|inner IH|inner IH dflt]; intros Hd; simpl.
  - by destruct d.
  - by destruct d.
  - destruct d; try done. by destruct (existsb _ _).
  - destruct d; try done; by apply IH.
  - destruct d; try done; by apply IH.
Qed.

Lemma parse_defined t path (d : prim) :
  d ≠ PUndefined → (_parse t path d).1 = [] → _parse t path d = ([], d).
Proof.
  intros Hd H. pose proof (parse_output t path d Hd) as Ho.
  destruct (_parse t path d) as [iss out]. simpl in *. by subst.
Qed.

Lemma parse_again_undefined t path :
  (_parse t path PUndefined).1 = [] →
  _parse t path (_parse t path PUndefined).2 =
    ([], (_parse t path PUndefined).2).
Proof.
  induction t as [checks|checks|values|inner IH|inner IH dflt]; try done.
  change (_parse (ZodDefault inner dflt) path PUndefined)
    with (_parse inner path dflt).
  intros H.
  destruct (decide ((_parse inner path dflt).2 = PUndefined)) as [E|E].
  - rewrite E. change (_parse (ZodDefault inner dflt) path PUndefined)
      with (_parse inner path dflt).
    destruct (_parse inner path dflt) as [iss out]. simpl in *. by subst.
  - transitivity (_parse inner path (_parse inner path dflt).2).
    { by destruct ((_parse inner path dflt).2). }
    destruct (decide (dflt = PUndefined)) as [->|Hd].
    + by apply IH.
    + rewrite (parse_output inner path dflt Hd). by apply parse_defined.
Qed.

(** A value that passed validation passes it again, unchanged. *)
Lemma parse_again t path (d : prim) :
  (_parse t path d).1 = [] →
  _parse t path (_parse t path d).2 = ([], (_parse t path d).2).
Proof.
  destruct (decide (d = PUndefined)) as [->|Hd].
  - apply parse_again_undefined.
  - intros H. rewrite (parse_output t path d Hd). by apply parse_defined.
Qed.

(** The object parser reads its input at the keys of the shape only. *)
Lemma parse_shape_agree (shape : ZodObject) data1 data2 :
  (∀ key, key ∈ shape.*1 → data1 !! key = data2 !! key) →
  parse_shape shape data1 = parse_shape shape data2.
Proof.
  induction shape as [|[key t] rest IH]; intros H; [done|].
  simpl. rewrite (H key) by (simpl; left).
  rewrite IH; [done|]. intros k Hk. apply H. simpl. by right.
Qed.

(** Its output has no key outside the shape. *)
Lemma parse_shape_strips (shape : ZodObject) data key :
  key ∉ shape.*1 → (parse_shape shape data).2 !! key = None.
Proof.
  induction shape as [|[k t] rest IH]; intros H; [done|].
  simpl in *. apply not_elem_of_cons in H as [Hne Hrest].
  destruct (_parse t [k] _).2, (data !! k);
    rewrite ?lookup_insert_ne by done; by apply IH.
Qed.

Lemma parse_shape_again (shape : ZodObject) data :
  NoDup shape.*1 →
  (parse_shape shape data).1 = [] →
  parse_shape shape (parse_shape shape data).2 =
    ([], (parse_shape shape data).2).
Proof.
  induction shape as [|[key t] rest IH]; intros Hnd H; [done|].
  simpl in Hnd. apply NoDup_cons in Hnd as [Hkey Hnd].
  cbn [parse_shape fst snd] in *.
  apply app_eq_nil in H as [Hr Hrs].
  set (r := _parse t [key] (default PUndefined (data !! key))) in *.
  set (rs := parse_shape rest data) in *.
  set (obj := match r.2, data !! key with
              | PUndefined, None => rs.2
              | value, _ => <[key := value]> rs.2
              end).
  assert (Hstrip : rs.2 !! key = None) by by apply parse_shape_strips.
  assert (Hobj : default PUndefined (obj !! key) = r.2).
  { unfold obj. destruct r.2 eqn:E, (data !! key);
      rewrite ?lookup_insert_eq, ?Hstrip; done. }
  assert (Hrest : parse_shape rest obj = ([], rs.2)).
  { rewrite <- (IH Hnd Hrs). apply parse_shape_agree. intros k Hk.
    assert (k ≠ key) by (intros ->; done).
    unfold obj. destruct r.2, (data !! key);
      rewrite ?lookup_insert_ne by done; done. }
  change (parse_shape ((key, t) :: rest) obj)
    with ((((_parse t [key] (default PUndefined (obj !! key))).1 ++
            (parse_shape rest obj).1)%list,
           match (_parse t [key] (default PUndefined (obj !! key))).2,
                 obj !! key with
           | PUndefined, None => (parse_shape rest obj).2
           | value, _ => <[key := value]> (parse_shape rest obj).2
           end)).
  assert (Hagain : _parse t [key] r.2 = ([], r.2))
    by (apply parse_again; exact Hr).
  rewrite Hobj, Hrest, Hagain. simpl. f_equal.
  unfold obj. destruct r.2 eqn:E, (data !! key);
    rewrite ?lookup_insert_eq, ?Hstrip; done.
Qed.

(** Validated arguments validate again, to themselves: the handlers
    parse once more what the dispatcher has parsed. *)
Lemma parse_idempotent (schema : ZodObject) data validated :
  NoDup schema.*1 →
  parse schema data = Return validated →
  parse schema validated = Return validated.
Proof.
  unfold parse. intros Hnd H.
  destruct (parse_shape schema data).1 eqn:E; [|done].
  injection H as <-. by rewrite (parse_shape_again schema data Hnd E).
Qed.


End Validation.

(** ** Client calls and handlers *)

Section Handlers.
Import I14YClient Server.

(** A client method sends its one request; it returns the body, or
    rejects with what [_handleError] makes of the failure. *)
Lemma client_call (url : string) (options : option (gmap string prim))
    (transport : Transport) :
  try_catch (ky_get url options) rethrow transport =
    ([ {| url := url; searchParams := options |} ],
     match transport {| url := url; searchParams := options |} with
     | Return body => Return body
     | Throw e => match _handleError e with
                  | Return e' => Throw e'
                  | Throw e' => Throw e'
                  end
     end).
Proof.
  unfold try_catch, ky_get, rethrow, lift, throw, mbind, IO_bind.
  destruct (transport _) as [body|e]; [done|].
  cbn. destruct (_handleError e); reflexivity.
Qed.

(** What a client method rejects with has a readable [message]. *)
Lemma client_call_cases (url : string) (options : option (gmap string prim))
    (transport : Transport) :
  let request := {| url := url; searchParams := options |} in
  (∃ body, transport request = Return body ∧
     try_catch (ky_get url options) rethrow transport =
       ([request], Return body)) ∨
  (∃ e e' m, transport request = Throw e ∧ get_message e' = Return m ∧
     try_catch (ky_get url options) rethrow transport =
       ([request], Throw e')).
Proof.
  intros request. rewrite client_call. fold request.
  destruct (transport request) as [body|e]; [left; eauto|right].
  destruct (handleError_result_readable e) as (e' & m & [H|H] & Hm);
    rewrite H; eauto 10.
Qed.

Lemma error_text_run (prefix : string) (e : jsval) (m : prim)
    (transport : Transport) :
  get_message e = Return m →
  error_text prefix e transport =
    ([], Return (text_envelope (prefix +:+ String_ m) (Some true))).
Proof.
  intros H. unfold error_text, lift, mbind, IO_bind, mret, IO_ret.
  by rewrite H.
Qed.

Lemma formatSuccess_envelope (data : json) :
  ∃ text, formatSuccess data = text_envelope text None.
Proof. eexists. reflexivity. Qed.

Lemma formatError_envelope (error : jsval) :
  ∃ text, formatError error = text_envelope text (Some true).
Proof.
  unfold formatError. repeat case_match; eexists; reflexivity.
Qed.

(** The common shape of the tool handlers: parse, one client call,
    format; any failure goes to the [catch] clause. *)
Lemma standard_handler_run (schema : Zod.ZodObject)
    (call : gmap string prim → IO json) (fmt : json → Envelope)
    (catcher : jsval → IO Envelope) (args parsed : gmap string prim)
    (url : string) (options : option (gmap string prim))
    (transport : Transport) :
  Zod.parse schema args = Return parsed →
  call parsed = try_catch (ky_get url options) rethrow →
  (∀ result, ∃ text, fmt result = text_envelope text None) →
  (∀ e m transport, get_message e = Return m →
     ∃ text, catcher e transport =
               ([], Return (text_envelope text (Some true)))) →
  ∃ text flag,
    try_catch
      (parsed ← lift (Zod.parse schema args);
       result ← call parsed;
       mret (fmt result))
      catcher transport =
      ([ {| url := url; searchParams := options |} ],
       Return (text_envelope text flag)) ∧
    match transport {| url := url; searchParams := options |} with
    | Return _ => flag = None
    | Throw _ => flag = Some true
    end.
Proof.
  intros Hparse Hc Hfmt Hcatch.
  unfold try_catch at 1, lift, mbind, IO_bind, mret, IO_ret.
  rewrite Hparse. cbn. rewrite Hc.
  destruct (client_call_cases url options transport)
    as [(body & Ht & ->)|(e & e' & m & Ht & Hm & ->)]; rewrite Ht; cbn.
  - destruct (Hfmt body) as [text ->]. by exists text, None.
  - destruct (Hcatch e' m transport Hm) as [text ->]. by exists text, (Some true).
Qed.

Lemma standard_handler (schema : Zod.ZodObject)
    (call : gmap string prim → IO json) (fmt : json → Envelope)
    (catcher : jsval → IO Envelope) :
  (∀ parsed, ∃ url options,
     call parsed = try_catch (ky_get url options) rethrow) →
  (∀ result, ∃ text, fmt result = text_envelope text None) →
  (∀ e m transport, get_message e = Return m →
     ∃ text, catcher e transport =
               ([], Return (text_envelope text (Some true)))) →
  handler_ok schema
    (λ args, try_catch
               (parsed ← lift (Zod.parse schema args);
                result ← call parsed;
                mret (fmt result))
               catcher).
Proof.
  intros Hcall Hfmt Hcatch validated transport Hparse.
  destruct (Hcall validated) as (url & options & Hc).
  exists {| url := url; searchParams := options |}.
  by apply (standard_handler_run schema call fmt catcher validated validated).
Qed.

Local Ltac standard call fmt catcher :=
  apply (standard_handler _ call fmt catcher);
  [ intros; eexists _, _; reflexivity
  | apply formatSuccess_envelope
  | intros; eexists; by apply error_text_run ].

Lemma searchConcepts_ok :
  handler_ok Schemas.searchConceptsSchema ConceptTools.searchConcepts.
Proof.
  standard (λ params, searchConcepts params) formatSuccess
           (error_text "Error searching concepts: ").
Qed.

Lemma getConcept_ok :
  handler_ok Schemas.getConceptSchema ConceptTools.getConcept.
Proof.
  standard (λ parsed, getConcept (prop parsed "id") false) formatSuccess
           (error_text "Error getting concept: ").
Qed.

Lemma getCodeListEntries_ok :
  handler_ok Schemas.getCodeListEntriesSchema ConceptTools.getCodeListEntries.
Proof.
  standard (λ parsed, getConcept (prop parsed "id") true) formatSuccess
           (error_text "Error getting code list entries: ").
Qed.

Lemma searchDataServices_ok :
  handler_ok Schemas.searchDataServicesSchema DataServiceTools.searchDataServices.
Proof.
  standard (λ params, searchDataServices params) formatSuccess
           (error_text "Error: ").
Qed.

Lemma getDataService_ok :
  handler_ok Schemas.getDataServiceSchema DataServiceTools.getDataService.
Proof.
  standard (λ parsed, getDataService (prop parsed "id")) formatSuccess
           (error_text "Error: ").
Qed.

Lemma searchPublicServices_ok :
  handler_ok Schemas.searchPublicServicesSchema
    PublicServiceTools.searchPublicServices.
Proof.
  standard (λ params, searchPublicServices params) formatSuccess
           (error_text "Error: ").
Qed.

Lemma getPublicService_ok :
  handler_ok Schemas.getPublicServiceSchema PublicServiceTools.getPublicService.
Proof.
  standard (λ parsed, getPublicService (prop parsed "id")) formatSuccess
           (error_text "Error: ").
Qed.

Lemma formatError_catcher (e : jsval) (transport : Transport) :
  ∃ text, (mret (formatError e) : IO Envelope) transport =
            ([], Return (text_envelope text (Some true))).
Proof.
  destruct (formatError_envelope e) as [text H]. exists text.
  unfold mret, IO_ret. by rewrite H.
Qed.

Lemma searchDatasets_ok :
  handler_ok Schemas.searchDatasetsSchema DatasetTools.searchDatasets.
Proof.
  apply (standard_handler _ (λ params, searchDatasets params) formatSuccess
           (λ error, mret (formatError error))).
  - intros; eexists _, _; reflexivity.
  - apply formatSuccess_envelope.
  - intros. apply formatError_catcher.
Qed.

Lemma getDataset_ok :
  handler_ok Schemas.getDatasetSchema DatasetTools.getDataset.
Proof.
  apply (standard_handler _
           (λ parsed, getDataset (prop parsed "id") (prop parsed "language"))
           formatSuccess (λ error, mret (formatError error))).
  - intros parsed. unfold getDataset.
    destruct (truthy (prop parsed "language")); eexists _, _; reflexivity.
  - apply formatSuccess_envelope.
  - intros. apply formatError_catcher.
Qed.

(** The handler of [catalog-tools.js] does not parse its arguments. *)
Lemma catalog_get_code_list_entries_run (args : gmap string prim)
    (transport : Transport) :
  let request :=
    {| url := "concepts/" +:+ String_ (prop args "id") +:+ "/codelistentries";
       searchParams :=
         Some (as_params
                 (_buildSearchParams
                    (<["pageSize" := prop args "pageSize"]>
                       (<["page" := prop args "page"]> ∅)) 1 25)) |} in
  ∃ text flag,
    CatalogTools.get_code_list_entries args transport =
      ([request], Return (text_envelope text flag)) ∧
    match transport request with
    | Return _ => flag = None
    | Throw _ => flag = Some true
    end.
Proof.
  intros request.
  unfold CatalogTools.get_code_list_entries, getCodeListEntries.
  unfold try_catch at 1, mbind, IO_bind, mret, IO_ret.
  match goal with
  | |- context [try_catch (ky_get ?u ?o) rethrow transport] =>
      destruct (client_call_cases u o transport)
        as [(body & Ht & ->)|(e & e' & m & Ht & Hm & ->)]
  end; fold request in Ht |- *; rewrite Ht; cbn.
  - by eexists _, None.
  - rewrite (error_text_run _ e' m transport Hm). by eexists _, (Some true).
Qed.

Lemma catalog_get_code_list_entries_ok :
  handler_ok Schemas.getCodeListEntriesSchema CatalogTools.get_code_list_entries.
Proof.
  intros validated transport _. eexists.
  apply catalog_get_code_list_entries_run.
Qed.

(** Every registered tool: its handler behaves, and the keys of its
    schema are distinct. *)
Lemma tools_lookup (name : string) (tool : Tool) :
  tools !! name = Some tool →
  handler_ok (schema tool) (handler tool) ∧ NoDup (schema tool).*1.
Proof.
  unfold tools, PublicServiceTools.registerPublicServiceTools,
    DataServiceTools.registerDataServiceTools,
    DatasetTools.registerDatasetTools, ConceptTools.registerConceptTools,
    CatalogTools.registerCatalogTools, Server.tool.
  intros H.
  repeat (apply lookup_insert_Some in H as [[<- <-]|[? H]];
          [cbn [schema handler]; split; [|compute_done]|]).
  - apply getPublicService_ok.
  - apply searchPublicServices_ok.
  - apply getDataService_ok.
  - apply searchDataServices_ok.
  - apply getDataset_ok.
  - apply searchDatasets_ok.
  - apply getCodeListEntries_ok.
  - apply getConcept_ok.
  - apply searchConcepts_ok.
  - apply catalog_get_code_list_entries_ok.
  - by rewrite lookup_empty in H.
Qed.



(** Once the arguments have passed validation, the dispatcher answers
    with what the handler answers. *)
Lemma CallTool_validated (name : string) (tool : Tool)
    (args validated : gmap string prim) (transport : Transport) :
  tools !! name = Some tool →
  Zod.parse (schema tool) args = Return validated →
  CallTool name args transport = handler tool validated transport.
Proof.
  intros Htool Hv. destruct (tools_lookup name tool Htool) as [Hok Hnd].
  destruct (Hok validated transport (parse_idempotent _ _ _ Hnd Hv))
    as (request & text & flag & Hrun & _).
  unfold CallTool. rewrite Htool.
  unfold try_catch, lift, mbind, IO_bind, mret, IO_ret.
  rewrite Hv, Hrun. reflexivity.
Qed.

End Handlers.

(** ** Operations *)

Section Operations.
Import I14YClient Server.

Lemma parse_code_list_arguments (id : string) :
  Zod.uuidRegex_test id = true →
  Zod.parse Schemas.getCodeListEntriesSchema {[ "id" := PStr id ]} =
    Return (<["id" := PStr id]>
              (<["page" := PNum 1]> (<["pageSize" := PNum 25]> ∅))).
Proof.
  intros H. unfold Zod.parse, Schemas.getCodeListEntriesSchema.
  cbn [Zod.parse_shape fst snd].
  rewrite lookup_singleton_eq, !lookup_singleton_ne by done.
  cbn. rewrite H. reflexivity.
Qed.

(** The one request of the registered [get_code_list_entries]. *)
Lemma get_code_list_entries_sent (id : string) (transport : Transport) :
  Zod.uuidRegex_test id = true →
  (CallTool "get_code_list_entries" {[ "id" := PStr id ]} transport).1 =
    [ {| url := "concepts/" +:+ id;
         searchParams := Some {[ "includeCodeListEntries" := PStr "true" ]} |} ].
Proof.
  intros Hid.
  pose proof (parse_code_list_arguments id Hid) as Hparse.
  set (validated := <["id" := PStr id]> _) in *.
  rewrite (CallTool_validated "get_code_list_entries" _ _ validated transport
             eq_refl Hparse).
  cbn [handler].
  destruct (standard_handler_run Schemas.getCodeListEntriesSchema
              (λ parsed, getConcept (prop parsed "id") true) formatSuccess
              (error_text "Error getting code list entries: ")
              validated validated
              ("concepts/" +:+ id)
              (Some {[ "includeCodeListEntries" := PStr "true" ]}) transport)
    as (text & flag & Hrun & _).
  - apply (parse_idempotent _ {[ "id" := PStr id ]}); [compute_done|done].
  - reflexivity.
  - apply formatSuccess_envelope.
  - intros. eexists. by apply error_text_run.
  - unfold ConceptTools.getCodeListEntries. by rewrite Hrun.
Qed.

(** The handler of [catalog-tools.js], which the registry does not hold
    any more, is the one that calls the code-list-entries endpoint. *)
Lemma catalog_get_code_list_entries_sent (id : string) (transport : Transport) :
  (CatalogTools.get_code_list_entries
     (<["id" := PStr id]> (<["page" := PNum 1]> (<["pageSize" := PNum 25]> ∅)))
     transport).1 =
    [ {| url := "concepts/" +:+ id +:+ "/codelistentries";
         searchParams :=
           Some {[ "page" := PStr "1"; "pageSize" := PStr "25" ]} |} ].
Proof.
  destruct (catalog_get_code_list_entries_run
              (<["id" := PStr id]>
                 (<["page" := PNum 1]> (<["pageSize" := PNum 25]> ∅)))
              transport) as (text & flag & Hrun & _).
  rewrite Hrun. reflexivity.
Qed.

(** C5 (amended). For a valid UUID [id], the operation registered as
    [get_code_list_entries] is the handler of [concept-tools.js], which
    calls [getConcept(id, true)]: invoked with [{id}] it sends one request,
    to the path [concepts/{id}], with [includeCodeListEntries = "true"] in
    the query. *)
Theorem get_code_list_entries_request (id : string) (transport : Transport) :
  Zod.uuidRegex_test id = true →
  (∃ tool, tools !! "get_code_list_entries" = Some tool ∧
           handler tool = ConceptTools.getCodeListEntries) ∧
  ∃ query,
    (CallTool "get_code_list_entries" {[ "id" := PStr id ]} transport).1 =
      [ {| url := "concepts/" +:+ id; searchParams := Some query |} ] ∧
    query !! "includeCodeListEntries" = Some (PStr "true").
Proof.
  intros Hid. split; [eexists; split; reflexivity|].
  eexists. split; [by apply get_code_list_entries_sent | reflexivity].
Qed.

Lemma get_code_list_entries_request_witness :
  ∃ query,
    (CallTool "get_code_list_entries"
       {[ "id" := PStr "123e4567-e89b-12d3-a456-426614174000" ]}
       (answering JNull)).1 =
      [ {| url := "concepts/" +:+ "123e4567-e89b-12d3-a456-426614174000";
           searchParams := Some query |} ] ∧
    query !! "includeCodeListEntries" = Some (PStr "true").
Proof.
  apply (get_code_list_entries_request
           "123e4567-e89b-12d3-a456-426614174000" (answering JNull)).
  reflexivity.
Defined.

(** C5 as stated fails: for the UUID of the repository's tests, the one
    request sent by the registered operation goes to [concepts/{id}],
    not to [concepts/{id}/codelistentries], and its query has no [page]. *)
Lemma get_code_list_entries_counterexample :
  Zod.uuidRegex_test "123e4567-e89b-12d3-a456-426614174000" = true ∧
  url <$> (CallTool "get_code_list_entries"
             {[ "id" := PStr "123e4567-e89b-12d3-a456-426614174000" ]}
             (answering JNull)).1 =
    [ "concepts/123e4567-e89b-12d3-a456-426614174000" ] ∧
  url <$> (CallTool "get_code_list_entries"
             {[ "id" := PStr "123e4567-e89b-12d3-a456-426614174000" ]}
             (answering JNull)).1 ≠
    [ "concepts/123e4567-e89b-12d3-a456-426614174000/codelistentries" ] ∧
  (λ r, searchParams r ≫= (.!! "page")) <$>
    (CallTool "get_code_list_entries"
       {[ "id" := PStr "123e4567-e89b-12d3-a456-426614174000" ]}
       (answering JNull)).1 = [ None ].
Proof.
  repeat split; try reflexivity. intros H. vm_compute in H. discriminate H.
Qed.

(** The one request of the client's [getDataset]. *)
Lemma getDataset_sent (datasetId language : prim) (transport : Transport) :
  (getDataset datasetId language transport).1 =
    [ {| url := "datasets/" +:+ String_ datasetId;
         searchParams := if truthy language
                         then Some {[ "language" := language ]}
                         else None |} ].
Proof.
  unfold getDataset. destruct (truthy language); by rewrite client_call.
Qed.

Lemma get_dataset_sent (args validated : gmap string prim)
    (transport : Transport) :
  Zod.parse Schemas.getDatasetSchema args = Return validated →
  (CallTool "get_dataset" args transport).1 =
    (getDataset (prop validated "id") (prop validated "language") transport).1.
Proof.
  intros Hparse.
  rewrite (CallTool_validated "get_dataset" _ _ validated transport
             eq_refl Hparse).
  cbn [handler].
  assert (Hcall : ∃ url options,
            getDataset (prop validated "id") (prop validated "language") =
            try_catch (ky_get url options) rethrow).
  { unfold getDataset.
    destruct (truthy (prop validated "language")); eexists _, _; reflexivity. }
  destruct Hcall as (url & options & Hcall).
  destruct (standard_handler_run Schemas.getDatasetSchema
              (λ parsed, getDataset (prop parsed "id") (prop parsed "language"))
              formatSuccess (λ error, mret (formatError error))
              validated validated url options transport)
    as (text & flag & Hrun & _).
  - apply (parse_idempotent _ args); [compute_done|done].
  - exact Hcall.
  - apply formatSuccess_envelope.
  - intros. apply formatError_catcher.
  - unfold DatasetTools.getDataset. rewrite Hrun, Hcall.
    by rewrite client_call.
Qed.

(** C6. The client's [getDataset(id, language)] sends its GET with no
    query object when [language] is absent, and with the query
    [{language}] alone, so without [page] or [pageSize], when a language
    such as "fr" is given. The same holds through the operation
    [get_dataset]. *)
Theorem getDataset_request (datasetId : prim) (id language : string)
    (transport : Transport) :
  language ≠ "" →
  (getDataset datasetId PUndefined transport).1 =
    [ {| url := "datasets/" +:+ String_ datasetId; searchParams := None |} ] ∧
  (getDataset datasetId (PStr language) transport).1 =
    [ {| url := "datasets/" +:+ String_ datasetId;
         searchParams := Some {[ "language" := PStr language ]} |} ] ∧
  ({[ "language" := PStr language ]} : gmap string prim) !! "page" = None ∧
  ({[ "language" := PStr language ]} : gmap string prim) !! "pageSize" = None ∧
  (CallTool "get_dataset" {[ "id" := PStr id ]} transport).1 =
    [ {| url := "datasets/" +:+ id; searchParams := None |} ] ∧
  (CallTool "get_dataset"
     (<["language" := PStr language]> {[ "id" := PStr id ]}) transport).1 =
    [ {| url := "datasets/" +:+ id;
         searchParams := Some {[ "language" := PStr language ]} |} ].
Proof.
  intros Hl.
  assert (Ht : truthy (PStr language) = true) by (by destruct language).
  repeat split.
  - by rewrite getDataset_sent.
  - by rewrite getDataset_sent, Ht.
  - rewrite (get_dataset_sent _ (<["id" := PStr id]> ∅)).
    + by rewrite getDataset_sent.
    + unfold Zod.parse, Schemas.getDatasetSchema.
      cbn [Zod.parse_shape fst snd].
      by rewrite lookup_singleton_eq, lookup_singleton_ne.
  - rewrite (get_dataset_sent _
               (<["id" := PStr id]> (<["language" := PStr language]> ∅))).
    + rewrite getDataset_sent.
      unfold prop. rewrite lookup_insert_eq.
      rewrite lookup_insert_ne, lookup_insert_eq by done.
      cbn [default from_option]. unfold Datatypes.id. by rewrite Ht.
    + unfold Zod.parse, Schemas.getDatasetSchema.
      cbn [Zod.parse_shape fst snd].
      rewrite lookup_insert_eq.
      by rewrite lookup_insert_ne, lookup_singleton_eq.
Qed.

Lemma getDataset_request_witness :
  (CallTool "get_dataset"
     (<["language" := PStr "fr"]> {[ "id" := PStr "123" ]})
     (answering JNull)).1 =
    [ {| url := "datasets/" +:+ "123";
         searchParams := Some {[ "language" := PStr "fr" ]} |} ].
Proof.
  apply (getDataset_request (PStr "123") "123" "fr" (answering JNull)).
  discriminate.
Defined.

(** C9 (amended). [search_concepts] called with [{page: 0}] sends no
    request and answers with an envelope flagged [isError: true], whose
    text is the prefix "Error executing search_concepts: " (or, when the
    handler is called directly, "Error searching concepts: ") followed by
    the message of the [ZodError]: the JSON list of its issues, here
    "Number must be greater than or equal to 1" at path [page]. *)
Theorem search_concepts_page_zero (transport : Transport) :
  Zod.parse Schemas.searchConceptsSchema {[ "page" := PNum 0 ]} =
    Throw (Zod.ZodError [Zod.too_small 1 ["page"]]) ∧
  CallTool "search_concepts" {[ "page" := PNum 0 ]} transport =
    ([], Return (text_envelope
                   ("Error executing search_concepts: " +:+ page_too_small_message)
                   (Some true))) ∧
  ConceptTools.searchConcepts {[ "page" := PNum 0 ]} transport =
    ([], Return (text_envelope
                   ("Error searching concepts: " +:+ page_too_small_message)
                   (Some true))) ∧
  contains page_too_small_message "Number must be greater than or equal to 1" ∧
  contains page_too_small_message "page".
Proof.
  repeat split; try reflexivity; apply includes_contains; reflexivity.
Qed.

Lemma search_concepts_page_zero_witness :
  ConceptTools.searchConcepts {[ "page" := PNum 0 ]} (answering JNull) =
    ([], Return (text_envelope
                   ("Error searching concepts: " +:+ page_too_small_message)
                   (Some true))).
Proof. apply (search_concepts_page_zero (answering JNull)). Defined.

(** C9 as stated fails: the envelope is an error and no request is sent,
    but its text does not mention "Validation". *)
Lemma search_concepts_page_zero_counterexample :
  CallTool "search_concepts" {[ "page" := PNum 0 ]} (answering JNull) =
    ([], Return (text_envelope
                   ("Error executing search_concepts: " +:+ page_too_small_message)
                   (Some true))) ∧
  includes "Validation"
    ("Error executing search_concepts: " +:+ page_too_small_message) = false ∧
  ¬ contains ("Error executing search_concepts: " +:+ page_too_small_message)
      "Validation".
Proof.
  split; [reflexivity|]. split; [reflexivity|].
  apply not_contains. reflexivity.
Qed.

End Operations.

(** ** The repository's tests and the specification's scenarios *)

Section Scenarios.
Import I14YClient Server.

(** [_buildSearchParams] (tests of the client). *)
Example buildSearchParams_with_defaults :
  _buildSearchParams ∅ 1 25 = {[ "page" := "1"; "pageSize" := "25" ]}.
Proof. reflexivity. Qed.

Example buildSearchParams_filters_null_and_undefined :
  _buildSearchParams
    (<["conceptIdentifier" := PStr "test"]>
       (<["publisherIdentifier" := PNull]>
          (<["version" := PUndefined]> {[ "publicationLevel" := PStr "" ]})))
    1 25 =
  {[ "conceptIdentifier" := "test"; "page" := "1"; "pageSize" := "25" ]}.
Proof. reflexivity. Qed.

Example buildSearchParams_converts_to_strings :
  _buildSearchParams (<["page" := PNum 2]> {[ "pageSize" := PNum 50 ]}) 1 25 =
  {[ "page" := "2"; "pageSize" := "50" ]}.
Proof. reflexivity. Qed.

(** Error handling (tests of the client): what [searchConcepts] rejects
    with. *)
Example searchConcepts_rejects_400 :
  (searchConcepts ∅ (failing (Obj (http_error "Bad Request" 400)))).2 =
  Throw (new_Error
           "API request failed with status 400: Bad Request - Invalid parameters").
Proof. reflexivity. Qed.

Example searchConcepts_rejects_502 :
  (searchConcepts ∅ (failing (Obj (http_error "Bad Gateway" 502)))).2 =
  Throw (new_Error "API request failed with status 502: Server error").
Proof. reflexivity. Qed.

Example searchConcepts_rejects_429 :
  (searchConcepts ∅ (failing (Obj (http_error "Too Many Requests" 429)))).2 =
  Throw (Obj (http_error "Too Many Requests" 429)).
Proof. reflexivity. Qed.

Example searchConcepts_rejects_network_error :
  (searchConcepts ∅ (failing (Obj (plain_error "Network error")))).2 =
  Throw (Obj (plain_error "Network error")).
Proof. reflexivity. Qed.

(** The schemas (tests of [schemas.js]). *)
Example searchConceptsSchema_accepts_empty_object :
  Zod.parse Schemas.searchConceptsSchema ∅ =
  Return (<["page" := PNum 1]> {[ "pageSize" := PNum 25 ]}).
Proof. reflexivity. Qed.

Example searchConceptsSchema_rejects_page_size_101 :
  Zod.parse Schemas.searchConceptsSchema {[ "pageSize" := PNum 101 ]} =
  Throw (Zod.ZodError [Zod.too_big 100 ["pageSize"]]).
Proof. reflexivity. Qed.

Example searchConceptsSchema_rejects_publication_level :
  Zod.parse Schemas.searchConceptsSchema
    {[ "publicationLevel" := PStr "InvalidLevel" ]} =
  Throw (Zod.ZodError
           [Zod.invalid_enum_value ["Internal"; "Public"] "InvalidLevel"
              ["publicationLevel"]]).
Proof. reflexivity. Qed.

Example getConceptSchema_rejects_bad_uuid :
  Zod.parse Schemas.getConceptSchema {[ "id" := PStr "not-a-uuid" ]} =
  Throw (Zod.ZodError [Zod.invalid_uuid ["id"]]).
Proof. reflexivity. Qed.

Example getConceptSchema_rejects_missing_id :
  Zod.parse Schemas.getConceptSchema ∅ =
  Throw (Zod.ZodError [Zod.invalid_type "string" PUndefined ["id"]]).
Proof. reflexivity. Qed.

(** [formatError] (tests of the formatters). *)
Example formatError_http_error :
  formatError (Obj (http_error "Not Found" 404)) =
  text_envelope "Error: 404: Not Found" (Some true).
Proof. reflexivity. Qed.

Example formatError_validation_error :
  includes "Validation"
    (default "" (text <$> head (content (formatError (Obj
       {| instanceof_Error := true; Exn.name := PStr "ValidationError";
          message := PStr "Validation failed"; response := None;
          issues := Some [ {| path := Some [PStr "field1"];
                              issue_message := PStr "Required" |};
                           {| path := Some [PStr "field2"];
                              issue_message := PStr "Invalid format" |} ] |})))))
  = true.
Proof. reflexivity. Qed.

Example formatError_string :
  formatError (Prim (PStr "Simple error string")) =
  text_envelope "Error: Simple error string" (Some true).
Proof. reflexivity. Qed.

(** Scenario A: a search with no filters answers with the body as JSON. *)
Example scenario_A :
  let body := JObj [("items", JArr [JObj [("id", JStr "1");
                                          ("identifier", JStr "concept-1")]]);
                    ("totalCount", JNum 1)] in
  CallTool "search_concepts" ∅ (answering body) =
    ([ {| url := "concepts";
          searchParams := Some {[ "page" := PStr "1"; "pageSize" := PStr "25" ]} |} ],
     Return (text_envelope (stringify body) None)) ∧
  includes "concept-1" (stringify body) = true.
Proof. split; reflexivity. Qed.

(** Scenario B: [get_concept] on a 404. *)
Example scenario_B :
  CallTool "get_concept"
    {[ "id" := PStr "123e4567-e89b-12d3-a456-426614174000" ]}
    (failing (Obj (http_error "Not Found" 404))) =
    ([ {| url := "concepts/123e4567-e89b-12d3-a456-426614174000";
          searchParams := None |} ],
     Return (text_envelope
               "Error getting concept: API request failed with status 404: Resource not found"
               (Some true))).
Proof. reflexivity. Qed.

(** A name outside the registry: the dispatcher throws. *)
Example unknown_tool :
  CallTool "no_such_tool" ∅ (answering JNull) =
    ([], Throw (new_Error "Unknown tool: no_such_tool")).
Proof. reflexivity. Qed.

End Scenarios.

(** * Further properties of the code *)

(** ** The canonical query *)

Section CanonicalQuery.

Implicit Types (params : gmap string prim) (key : string).






(** Passing [null], [undefined] or [""] for a key is the same as leaving
    the key out. *)
Theorem buildSearchParams_dropped_is_absent params key (value : prim)
    (defaultPage defaultPageSize : Z) :
  dropped value →
  _buildSearchParams (<[key := value]> params) defaultPage defaultPageSize =
  _buildSearchParams (delete key params) defaultPage defaultPageSize.
Proof.
  intros Hd. apply provided_dropped in Hd.
  apply map_eq. intros k. rewrite !buildSearchParams_lookup.
  destruct (decide (key = k)) as [->|Hne].
  - rewrite lookup_insert_eq, lookup_delete_eq. simpl.
    unfold entry_of. by rewrite Hd.
  - by rewrite lookup_insert_ne, lookup_delete_ne.
Qed.

Lemma buildSearchParams_dropped_is_absent_witness :
  _buildSearchParams (<["version" := PNull]> {[ "page" := PNum 2 ]}) 1 25 =
  _buildSearchParams (delete "version" {[ "page" := PNum 2 ]}) 1 25.
Proof.
  apply (buildSearchParams_dropped_is_absent {[ "page" := PNum 2 ]}
           "version" PNull 1 25).
  left; reflexivity.
Defined.

End CanonicalQuery.

(** ** The error normalizer, applied again *)

Section NormalizerAgain.

(** Normalizing twice is normalizing once: what [_handleError] returns
    comes back unchanged from a second call. *)
Theorem handleError_idempotent (err err' : jsval) :
  _handleError err = Return err' →
  _handleError err' = Return err'.
Proof.
  destruct err as [p|o].
  - destruct p; simpl; intros [= <-]; reflexivity.
  - destruct (response o) as [[s]|] eqn:Hr.
    + rewrite (handleError_with_response o s Hr).
      pose proof (handleError_with_response o s Hr) as Ho.
      repeat case_match; intros [= <-]; try reflexivity.
      rewrite Ho. by repeat case_match.
    + rewrite (handleError_without_response o Hr). intros [= <-].
      by apply handleError_without_response.
Qed.

Lemma handleError_idempotent_witness :
  _handleError
    (new_Error (canonical_message 404 "Resource not found")) =
  Return (new_Error (canonical_message 404 "Resource not found")).
Proof.
  apply (handleError_idempotent (Obj (http_error "Not Found" 404))).
  reflexivity.
Defined.

(** For a status of the table, the normalized error depends on the status
    alone: the message and the name of the original are lost, and the new
    error is an [Error] without a [response]. *)
Theorem handleError_keeps_status_only (o1 o2 : Object) (s : Z) :
  response o1 = Some {| status := s |} →
  response o2 = Some {| status := s |} →
  s = 400 ∨ s = 401 ∨ s = 403 ∨ s = 404 ∨ 500 ≤ s →
  _handleError (Obj o1) = _handleError (Obj o2) ∧
  ∃ e, _handleError (Obj o1) = Return (Obj e) ∧
       instanceof_Error e = true ∧
       response e = None ∧
       contains (String_ (message e)) (String_ (PNum s)).
Proof.
  intros H1 H2 Hs.
  rewrite (handleError_with_response o1 s H1),
    (handleError_with_response o2 s H2).
  assert (Hge : s = 400 ∨ s = 401 ∨ s = 403 ∨ s = 404 ∨ (s >=? 500) = true).
  { destruct Hs as [?|[?|[?|[?|?]]]]; auto.
    do 4 right. destruct (Z.geb_spec s 500); [done|lia]. }
  destruct (s =? 400) eqn:E0; [|destruct (s =? 401) eqn:E1;
    [|destruct (s =? 403) eqn:E3; [|destruct (s =? 404) eqn:E4;
      [|destruct (s >=? 500) eqn:E5]]]];
    try (split; [reflexivity|];
         eexists; split; [reflexivity|]; split; [reflexivity|];
         split; [reflexivity|]; apply canonical_message_contains).
  destruct Hge as [->|[->|[->|[->|?]]]]; discriminate.
Qed.

Lemma handleError_keeps_status_only_witness :
  _handleError (Obj (http_error "Bad Gateway" 502)) =
  _handleError (Obj (http_error "upstream exploded" 502)).
Proof.
  apply (handleError_keeps_status_only (http_error "Bad Gateway" 502)
           (http_error "upstream exploded" 502) 502);
    [reflexivity | reflexivity | lia].
Defined.

End NormalizerAgain.

(** ** The facade *)

Section Facade.
Import I14YClient Client.

(** Every method is one guarded call of the transport. *)
Lemma run_shape (c : Call) :
  ∃ url options,
    run c = try_catch (ky_get url options) rethrow ∧
    (paginated c = true →
     ∃ params, options = Some (as_params (_buildSearchParams params 1 25))) ∧
    (paginated c = false →
     options = None ∨
     ∃ key value, options = Some {[ key := value ]} ∧
                  key ≠ "page" ∧ key ≠ "pageSize").
Proof.
  destruct c as [id [] | | | id lang | | id lang | | | | ]; simpl;
    try (eexists _, _; split; [reflexivity|];
         split; [intros; try done; eauto | intros; try done; eauto]; fail).
  - eexists _, _. split; [reflexivity|]. split; [done|].
    intros _. right. by eexists _, _.
  - unfold getDataset. destruct (truthy lang);
      eexists _, _; (split; [reflexivity|]); (split; [done|]); intros _;
      [right; by eexists _, _ | by left].
  - unfold getDatasetStructure. destruct (truthy lang);
      eexists _, _; (split; [reflexivity|]); (split; [done|]); intros _;
      [right; by eexists _, _ | by left].
Qed.




(** The get-by-id methods never send [page] or [pageSize]: the request
    has no query object, or a query with one entry under another key. *)
Theorem unpaginated_call_query (c : Call) (transport : Transport) :
  paginated c = false →
  ∃ url options,
    (run c transport).1 = [ {| url := url; searchParams := options |} ] ∧
    (options = None ∨
     ∃ query, options = Some query ∧ size query = 1%nat ∧
              query !! "page" = None ∧ query !! "pageSize" = None).
Proof.
  intros Hc. destruct (run_shape c) as (url & options & Hrun & _ & Hp).
  rewrite Hrun, client_call. eexists _, _. split; [reflexivity|].
  destruct (Hp Hc) as [->|(key & value & -> & Hk1 & Hk2)]; [by left|right].
  eexists. split; [reflexivity|].
  rewrite map_size_singleton, !lookup_singleton_ne by done. done.
Qed.

Lemma unpaginated_call_query_witness :
  ∃ url options,
    (run (call_getConcept (PStr "c1") true) (answering JNull)).1 =
      [ {| url := url; searchParams := options |} ] ∧
    (options = None ∨
     ∃ query, options = Some query ∧ size query = 1%nat ∧
              query !! "page" = None ∧ query !! "pageSize" = None).
Proof.
  apply (unpaginated_call_query (call_getConcept (PStr "c1") true)
           (answering JNull)).
  reflexivity.
Defined.




End Facade.

(** ** Error envelopes *)

Section ErrorEnvelopes.
Import I14YClient Server.

Lemma append_assoc (a b c : string) : (a +:+ b) +:+ c = a +:+ (b +:+ c).
Proof.
  induction a as [|x a IH]; [done|].
  change (String x ((a +:+ b) +:+ c) = String x (a +:+ (b +:+ c))).
  by rewrite IH.
Qed.

Lemma contains_app_l (a b x : string) : contains a x → contains (a +:+ b) x.
Proof.
  intros (pre & post & ->). exists pre, (post +:+ b).
  by rewrite !append_assoc.
Qed.

Lemma contains_app_r (a b x : string) : contains b x → contains (a +:+ b) x.
Proof.
  intros (pre & post & ->). exists (a +:+ pre), post.
  by rewrite !append_assoc.
Qed.

Lemma contains_refl (x : string) : contains x x.
Proof. exists "", "". by rewrite append_empty_r. Qed.

(** Every part occurs in the joined string. *)
Lemma join_contains (separator : string) (parts : list string) (x : string) :
  x ∈ parts → contains (join separator parts) x.
Proof.
  induction parts as [|p parts IH]; intros H.
  - by apply elem_of_nil in H.
  - destruct parts as [|q parts].
    + apply list_elem_of_singleton in H as ->. apply contains_refl.
    + change (join separator (p :: q :: parts))
        with (p +:+ separator +:+ join separator (q :: parts)).
      apply elem_of_cons in H as [->|H].
      * apply contains_app_l, contains_refl.
      * apply contains_app_r, contains_app_r, IH, H.
Qed.

(** A validation error is rendered from its issues alone: one line per
    issue under the heading "Validation Error:", each with the message of
    its issue. The message of the error and its HTTP status, if any, do
    not show. *)
Theorem formatError_validation (o1 o2 : Object) (issues_ : list Issue) :
  validation_error o1 issues_ →
  validation_error o2 issues_ →
  formatError (Obj o1) = formatError (Obj o2) ∧
  formatError (Obj o1) =
    text_envelope
      ("Error: Validation Error:" +:+ newline +:+
       join newline (issue_line <$> issues_))
      (Some true) ∧
  ∀ issue, issue ∈ issues_ →
    contains (join newline (issue_line <$> issues_))
             (String_ (issue_message issue)).
Proof.
  intros (Hi1 & Hn1 & Hs1) (Hi2 & Hn2 & Hs2).
  assert (H : ∀ o, validation_error o issues_ →
            formatError (Obj o) =
              text_envelope
                ("Error: Validation Error:" +:+ newline +:+
                 join newline (issue_line <$> issues_))
                (Some true)).
  { intros o (Hi & Hn & Hs). unfold formatError.
    rewrite Hi, Hs, Hn. reflexivity. }
  split; [|split].
  - rewrite !H; done.
  - by apply H.
  - intros issue Hin.
    assert (Hl : contains (issue_line issue) (String_ (issue_message issue))).
    { unfold issue_line. apply contains_app_r, contains_app_r, contains_refl. }
    destruct (join_contains newline (issue_line <$> issues_) (issue_line issue))
      as (pre & post & Hj).
    { apply list_elem_of_fmap. by exists issue. }
    rewrite Hj. apply contains_app_r, contains_app_l, Hl.
Qed.

Lemma formatError_validation_witness :
  formatError (Obj
    {| instanceof_Error := true; Exn.name := PStr "ValidationError";
       message := PStr "Validation failed";
       response := Some {| status := 400 |};
       issues := Some [ {| path := Some [PStr "field1"];
                           issue_message := PStr "Required" |} ] |}) =
  formatError (Obj
    {| instanceof_Error := true; Exn.name := PStr "ValidationError";
       message := PStr "something else"; response := None;
       issues := Some [ {| path := Some [PStr "field1"];
                           issue_message := PStr "Required" |} ] |}).
Proof.
  refine (proj1 (formatError_validation _ _
           [ {| path := Some [PStr "field1"];
                issue_message := PStr "Required" |} ] _ _));
    repeat split.
Defined.

(** The message of a [ZodError] is never empty. *)
Lemma ZodError_message_truthy (issues_ : list Zod.ZodIssue) :
  truthy (PStr (stringify (JArr (Zod.issue_json <$> issues_)))) = true.
Proof. by destruct issues_. Qed.

Lemma formatError_ZodError (issues_ : list Zod.ZodIssue) :
  formatError (Zod.ZodError issues_) =
    text_envelope
      ("Error: " +:+ stringify (JArr (Zod.issue_json <$> issues_)))
      (Some true).
Proof.
  unfold formatError, Zod.ZodError.
  cbn [instanceof_Error message response issues Exn.name strict_eq].
  unfold or_else. rewrite ZodError_message_truthy. reflexivity.
Qed.

(** The dataset tools render a failed validation as "Error: " followed by
    the message of the [ZodError], the JSON list of its issues: the
    error is named "ZodError", so the issue-by-issue rendering of
    [formatError] is not used; no request is sent. *)
Theorem dataset_tools_invalid_arguments (args : gmap string prim)
    (issues_ : list Zod.ZodIssue) (transport : Transport) :
  (Zod.parse Schemas.getDatasetSchema args = Throw (Zod.ZodError issues_) →
   DatasetTools.getDataset args transport =
     ([], Return (text_envelope
                    ("Error: " +:+ stringify (JArr (Zod.issue_json <$> issues_)))
                    (Some true)))) ∧
  (Zod.parse Schemas.searchDatasetsSchema args = Throw (Zod.ZodError issues_) →
   DatasetTools.searchDatasets args transport =
     ([], Return (text_envelope
                    ("Error: " +:+ stringify (JArr (Zod.issue_json <$> issues_)))
                    (Some true)))).
Proof.
  split; intros H.
  - unfold DatasetTools.getDataset, try_catch, lift, mbind, IO_bind, mret, IO_ret.
    rewrite H. cbn [fst snd app]. by rewrite formatError_ZodError.
  - unfold DatasetTools.searchDatasets, try_catch, lift, mbind, IO_bind,
      mret, IO_ret.
    rewrite H. cbn [fst snd app]. by rewrite formatError_ZodError.
Qed.

Lemma dataset_tools_invalid_arguments_witness :
  DatasetTools.getDataset ∅ (answering JNull) =
    ([], Return (text_envelope
                   ("Error: " +:+
                    stringify (JArr (Zod.issue_json <$>
                      [Zod.invalid_type "string" PUndefined ["id"]])))
                   (Some true))).
Proof.
  refine (proj1 (dataset_tools_invalid_arguments ∅
           [Zod.invalid_type "string" PUndefined ["id"]] (answering JNull)) _).
  reflexivity.
Defined.

(** A handler that formats its failures with [formatError]: when the one
    request fails with [e], the envelope is [formatError] of what the
    client rejects with. *)
Lemma formatting_handler_failure (schema : Zod.ZodObject)
    (call : gmap string prim → IO json) (args parsed : gmap string prim)
    (url : string) (options : option (gmap string prim))
    (transport : Transport) (e : jsval) :
  Zod.parse schema args = Return parsed →
  call parsed = try_catch (ky_get url options) rethrow →
  transport {| url := url; searchParams := options |} = Throw e →
  try_catch
    (parsed ← lift (Zod.parse schema args);
     result ← call parsed;
     mret (formatSuccess result))
    (λ error, mret (formatError error)) transport =
    ([ {| url := url; searchParams := options |} ],
     Return (formatError (rejection e))).
Proof.
  intros Hparse Hc Ht.
  unfold try_catch at 1, lift, mbind, IO_bind, mret, IO_ret.
  rewrite Hparse. cbn. rewrite Hc, client_call, Ht.
  unfold rejection. destruct (_handleError e); reflexivity.
Qed.

Lemma dataset_handler_failure (handler : gmap string prim → IO Envelope)
    (schema : Zod.ZodObject) (args parsed : gmap string prim)
    (transport : Transport) (e : jsval) :
  (handler = DatasetTools.getDataset ∧ schema = Schemas.getDatasetSchema) ∨
  (handler = DatasetTools.searchDatasets ∧
   schema = Schemas.searchDatasetsSchema) →
  Zod.parse schema args = Return parsed →
  (∀ request, transport request = Throw e) →
  ∃ request,
    handler args transport = ([request], Return (formatError (rejection e))).
Proof.
  intros [[-> ->]|[-> ->]] Hparse Ht.
  - unfold DatasetTools.getDataset, getDataset.
    destruct (truthy (prop parsed "language")) eqn:Hl; eexists;
      eapply (formatting_handler_failure Schemas.getDatasetSchema
                (λ parsed, I14YClient.getDataset (prop parsed "id")
                             (prop parsed "language")));
      [exact Hparse | unfold getDataset; rewrite Hl; reflexivity | apply Ht
      |exact Hparse | unfold getDataset; rewrite Hl; reflexivity | apply Ht].
  - eexists.
    eapply (formatting_handler_failure Schemas.searchDatasetsSchema
              I14YClient.searchDatasets);
      [exact Hparse | reflexivity | apply Ht].
Qed.

Lemma formatError_new_Error (s : Z) (suffix : string) :
  formatError (new_Error (canonical_message s suffix)) =
    text_envelope ("Error: " +:+ canonical_message s suffix) (Some true).
Proof. reflexivity. Qed.

(** What the dataset tools show when the upstream answers with an HTTP
    error of status [s]. For a status of the normalizer's table the text
    is "Error: " and the canonical message, and the message of the
    upstream error does not show. For any other status the upstream error
    reaches [formatError] with its response, and the text is
    "Error: {s}: {message}". *)
Theorem dataset_tools_failed_request
    (handler : gmap string prim → IO Envelope)
    (schema : Zod.ZodObject) (args parsed : gmap string prim)
    (transport : Transport) (o : Object) (s : Z) :
  (handler = DatasetTools.getDataset ∧ schema = Schemas.getDatasetSchema) ∨
  (handler = DatasetTools.searchDatasets ∧
   schema = Schemas.searchDatasetsSchema) →
  Zod.parse schema args = Return parsed →
  (∀ request, transport request = Throw (Obj o)) →
  instanceof_Error o = true →
  response o = Some {| status := s |} →
  ∃ request text,
    handler args transport =
      ([request], Return (text_envelope text (Some true))) ∧
    (s = 400 → text = "Error: " +:+
       canonical_message s "Bad Request - Invalid parameters") ∧
    (s = 401 → text = "Error: " +:+ canonical_message s "Unauthorized") ∧
    (s = 403 → text = "Error: " +:+ canonical_message s "Forbidden") ∧
    (s = 404 → text = "Error: " +:+
       canonical_message s "Resource not found") ∧
    (500 <= s → text = "Error: " +:+ canonical_message s "Server error") ∧
    (s < 500 → s ≠ 400 → s ≠ 401 → s ≠ 403 → s ≠ 404 → s ≠ 0 →
     truthy (message o) = true → issues o = None →
     text = "Error: " +:+ String_ (PNum s) +:+ ": " +:+ String_ (message o)).
Proof.
  intros Hh Hparse Ht Hi Hr.
  destruct (dataset_handler_failure handler schema args parsed transport
              (Obj o) Hh Hparse Ht) as [request ->].
  exists request. unfold rejection.
  rewrite (handleError_with_response o s Hr).
  destruct (s =? 400) eqn:E400;
    [|destruct (s =? 401) eqn:E401;
      [|destruct (s =? 403) eqn:E403;
        [|destruct (s =? 404) eqn:E404;
          [|destruct (s >=? 500) eqn:E500]]]];
    try (rewrite formatError_new_Error; eexists; split; [reflexivity|];
         repeat split; intros; try reflexivity; lia).
  exists (text (default {| type := ""; text := "" |}
                  (head (content (formatError (Obj o)))))).
  assert (Hf : s ≠ 0 → truthy (message o) = true → issues o = None →
               formatError (Obj o) =
                 text_envelope ("Error: " +:+ String_ (PNum s) +:+ ": " +:+
                                String_ (message o)) (Some true)).
  { intros Hs Hm Hn. unfold formatError. rewrite Hi, Hr, Hn.
    unfold or_else. rewrite Hm. cbn [status truthy].
    destruct (s =? 0) eqn:E0; [lia|]. reflexivity. }
  split.
  - unfold formatError. rewrite Hi, Hr. cbn [status].
    destruct (issues o) as [iss|];
      [destruct (strict_eq (Exn.name o) (PStr "ValidationError"))|];
      reflexivity.
  - repeat split; intros; try lia. rewrite Hf by assumption. reflexivity.
Qed.

Lemma dataset_tools_failed_request_witness :
  ∃ request text,
    DatasetTools.getDataset
      {[ "id" := PStr "08dd632d-aaf9-4b1c-b1c5-2bc3e2b8a8a1" ]}
      (failing (Obj (http_error "Too Many Requests" 429))) =
      ([request], Return (text_envelope text (Some true))) ∧
    text = "Error: 429: Too Many Requests".
Proof.
  destruct (dataset_tools_failed_request DatasetTools.getDataset
              Schemas.getDatasetSchema
              {[ "id" := PStr "08dd632d-aaf9-4b1c-b1c5-2bc3e2b8a8a1" ]}
              {[ "id" := PStr "08dd632d-aaf9-4b1c-b1c5-2bc3e2b8a8a1" ]}
              (failing (Obj (http_error "Too Many Requests" 429)))
              (http_error "Too Many Requests" 429) 429)
    as (request & text & Hrun & _ & _ & _ & _ & _ & Hother).
  - left. split; reflexivity.
  - vm_compute. reflexivity.
  - reflexivity.
  - reflexivity.
  - reflexivity.
  - exists request, text. split; [exact Hrun|].
    rewrite Hother; [reflexivity|lia|lia|lia|lia|lia|lia|reflexivity|reflexivity].
Defined.

End ErrorEnvelopes.

(** ** Display helpers *)

Section DisplayFacts.
Import Pagination Display.





Lemma length_append (a b : string) :
  String.length (a +:+ b) = (String.length a + String.length b)%nat.
Proof.
  induction a as [|c a IH]; [done|].
  change (S (String.length (a +:+ b)) = S (String.length a + String.length b)).
  by rewrite IH.
Qed.

(** [text.substring(0, n)] is the prefix of [text] of length
    [min n text.length]. *)
Lemma substring_prefix (n : nat) (s : string) :
  String.length (String.substring 0 n s) = Nat.min n (String.length s) ∧
  ∃ rest, s = String.substring 0 n s +:+ rest.
Proof.
  revert n. induction s as [|c s IH]; intros [|n]; simpl.
  - split; [done|]. by exists "".
  - split; [done|]. by exists "".
  - split; [done|]. by exists (String c s).
  - destruct (IH n) as [Hl [rest Hr]]. split; [by rewrite Hl|].
    exists rest.
    change (String c s = String c (String.substring 0 n s +:+ rest)).
    by rewrite <- Hr.
Qed.

(** With room for the ellipsis ([maxLength >= 3]) the result of
    [truncateText] on a string never exceeds [maxLength]; a string that
    fits is returned as it is, a longer one is cut to exactly
    [maxLength]: a prefix of the text and "...". Truncating the result
    again changes nothing. *)
Theorem truncateText_bound (s : string) (maxLength : Z) :
  3 ≤ maxLength →
  ∃ r,
    truncateText (PStr s) maxLength = Return (PStr r) ∧
    Z.of_nat (String.length r) ≤ maxLength ∧
    truncateText (PStr r) maxLength = Return (PStr r) ∧
    (Z.of_nat (String.length s) ≤ maxLength → r = s) ∧
    (maxLength < Z.of_nat (String.length s) →
     Z.of_nat (String.length r) = maxLength ∧
     ∃ kept rest, r = kept +:+ "..." ∧ s = kept +:+ rest).
Proof.
  intros Hm.
  assert (Hfits : ∀ t, Z.of_nat (String.length t) ≤ maxLength →
                       truncateText (PStr t) maxLength = Return (PStr t)).
  { intros t Ht. unfold truncateText.
    destruct (negb (truthy (PStr t))); [done|].
    destruct (Z.of_nat (String.length t) <=? maxLength) eqn:E; [done|lia]. }
  destruct (Z_le_gt_dec (Z.of_nat (String.length s)) maxLength) as [Hs|Hs].
  - exists s. rewrite (Hfits s Hs).
    split; [done|]. split; [lia|]. split; [done|]. split; [done|].
    intros; lia.
  - destruct (substring_prefix (Z.to_nat (maxLength - 3)) s) as [Hl [rest Hr]].
    exists (substring_to (maxLength - 3) s +:+ "...").
    assert (Hlen : Z.of_nat (String.length
                     (substring_to (maxLength - 3) s +:+ "...")) = maxLength).
    { rewrite length_append. unfold substring_to. rewrite Hl.
      change (String.length "...") with 3%nat. lia. }
    split; [|split; [lia|split; [apply Hfits; lia|split; [lia|]]]].
    + unfold truncateText. destruct s as [|c s]; [simpl in Hs; lia|].
      cbn [truthy negb String.eqb].
      destruct (Z.of_nat (String.length (String c s)) <=? maxLength) eqn:E;
        [lia|done].
    + intros _. split; [exact Hlen|]. by eexists _, rest.
Qed.

Lemma truncateText_bound_witness :
  ∃ r, truncateText (PStr "abcdefghij") 6 = Return (PStr r) ∧
       Z.of_nat (String.length r) ≤ 6.
Proof.
  destruct (truncateText_bound "abcdefghij" 6 ltac:(lia))
    as (r & H1 & H2 & _).
  by exists r.
Defined.

(** Below 3 there is no room for the ellipsis: a non-empty string longer
    than [maxLength] comes back as "..." alone, which is longer than
    [maxLength]. (The empty string is returned as it is, whatever the
    limit.) *)
Theorem truncateText_small_limit (s : string) (maxLength : Z) :
  maxLength < 3 →
  s ≠ "" →
  maxLength < Z.of_nat (String.length s) →
  truncateText (PStr s) maxLength = Return (PStr "...") ∧
  maxLength < Z.of_nat (String.length "...") ∧
  truncateText (PStr "") maxLength = Return (PStr "").
Proof.
  intros Hm Hne Hs. split; [|split; [simpl; lia|reflexivity]].
  unfold truncateText. destruct s as [|c s]; [done|].
  cbn [truthy negb String.eqb].
  destruct (Z.of_nat (String.length (String c s)) <=? maxLength) eqn:E; [lia|].
  unfold substring_to.
  replace (Z.to_nat (maxLength - 3)) with 0%nat by lia.
  reflexivity.
Qed.

Lemma truncateText_small_limit_witness :
  truncateText (PStr "abcdef") 2 = Return (PStr "...").
Proof.
  apply (truncateText_small_limit "abcdef" 2); [lia|done|simpl; lia].
Defined.







(** A list with at least one item is rendered with every formatted item
    in it and a closing line "Total: n". With a pagination object [n] is
    its [total], whatever the number of items; without one it is the
    number of items. An empty list gives "No items found" either way. *)
Theorem formatListResponse_contents {A} (items : list A)
    (formatter : A → string) (pagination : option ListPagination) :
  items ≠ [] →
  (∀ p, pagination = Some p → limit p ≠ 0) →
  let result := formatListResponse items formatter pagination in
  (∀ item, item ∈ items → contains result (formatter item)) ∧
  (∃ body, result = body +:+ newline +:+ "Total: " +:+
     String_ (PNum match pagination with
                   | Some p => total p
                   | None => Z.of_nat (length items)
                   end)) ∧
  formatListResponse [] formatter pagination = "No items found".
Proof.
  intros Hne _ result. split; [|split; [|done]].
  - intros item Hin.
    assert (Hj : contains (join (newline +:+ newline) (List.map formatter items))
                          (formatter item)).
    { apply join_contains. apply list_elem_of_fmap. by exists item. }
    unfold result, formatListResponse.
    destruct items as [|x items]; [done|].
    destruct pagination as [p|].
    + apply contains_app_l, contains_app_l, Hj.
    + apply contains_app_l, Hj.
  - unfold result, formatListResponse.
    destruct items as [|x items]; [done|].
    destruct pagination as [p|].
    + eexists. reflexivity.
    + exists (join (newline +:+ newline) (List.map formatter (x :: items)) +:+
              newline).
      symmetry. apply append_assoc.
Qed.

Lemma formatListResponse_contents_witness :
  contains
    (formatListResponse ["a"; "b"] (λ item, "Item: " +:+ item)
       (Some {| list_page := 1; limit := 10; total := 25 |}))
    "Item: b".
Proof.
  apply (formatListResponse_contents ["a"; "b"] (λ item, "Item: " +:+ item)
           (Some {| list_page := 1; limit := 10; total := 25 |}));
    [done | by intros p [= <-] | right; left].
Defined.

Lemma truthy_String_nonempty (value : prim) :
  truthy value = true → String_ value ≠ "".
Proof.
  destruct value as [| |[]|n|s]; try done.
  - intros _. apply Number_toString_nonempty.
  - by destruct s.
Qed.

Lemma push_if_spec (cond : bool) (line : string) (parts : list string) :
  ∃ extra, push_if cond line parts = (parts ++ extra)%list ∧
           (length extra ≤ 1)%nat ∧
           ∀ l, l ∈ extra → l = line ∧ cond = true.
Proof.
  destruct cond; simpl.
  - exists [line]. split; [done|]. split; [simpl; lia|].
    by intros l ->%list_elem_of_singleton.
  - exists []. rewrite app_nil_r. split; [done|]. split; [simpl; lia|].
    intros l H. by apply elem_of_nil in H.
Qed.

Lemma push_text_spec (label : string)
    (textObject : option (list (string * prim))) (parts : list string) :
  ∃ extra, push_text label textObject parts = (parts ++ extra)%list ∧
           (length extra ≤ 1)%nat ∧
           ∀ l, l ∈ extra → ∃ text, l = label +:+ text ∧ text ≠ "".
Proof.
  unfold push_text. destruct textObject as [props|].
  - destruct (push_if_spec (truthy (formatMultilingualText (Some props) "de"))
                (label +:+ String_ (formatMultilingualText (Some props) "de"))
                parts) as (extra & -> & Hl & He).
    exists extra. split; [done|]. split; [done|].
    intros l Hin. destruct (He l Hin) as [-> Ht].
    eexists. split; [done|]. by apply truthy_String_nonempty.
  - exists []. rewrite app_nil_r. split; [done|]. split; [simpl; lia|].
    intros l H. by apply elem_of_nil in H.
Qed.

(** The text of a concept has between one and five lines. The first is
    always "Concept ID: " with the identifier, or the id when there is
    no identifier; every other line is one of the four labels followed
    by a non-empty text: a title or description without text, a missing
    status or publication level leave no line. *)
Theorem formatConceptResult_lines (concept : Concept) :
  ∃ lines,
    formatConceptResult (Some concept) =
      join newline
        (("Concept ID: " +:+
          String_ (or_else (concept_identifier concept) (concept_id concept)))
         :: lines) ∧
    (length lines ≤ 4)%nat ∧
    (∀ line, line ∈ lines →
       ∃ label text,
         line = label +:+ text ∧
         label ∈ ["Title: "; "Description: "; "Status: "; "Publication Level: "] ∧
         text ≠ "") ∧
    (truthy (concept_identifier concept) = false →
     formatConceptResult (Some concept) =
       join newline (("Concept ID: " +:+ String_ (concept_id concept)) :: lines)).
Proof.
  unfold formatConceptResult.
  set (first := "Concept ID: " +:+
         String_ (or_else (concept_identifier concept) (concept_id concept))).
  destruct (push_text_spec "Title: " (concept_title concept) [first])
    as (e1 & -> & Hl1 & He1).
  destruct (push_text_spec "Description: " (concept_description concept)
              ([first] ++ e1)) as (e2 & -> & Hl2 & He2).
  destruct (push_if_spec (truthy (registrationStatus concept))
              ("Status: " +:+ String_ (registrationStatus concept))
              (([first] ++ e1) ++ e2)) as (e3 & -> & Hl3 & He3).
  destruct (push_if_spec (truthy (publicationLevel concept))
              ("Publication Level: " +:+ String_ (publicationLevel concept))
              ((([first] ++ e1) ++ e2) ++ e3)) as (e4 & -> & Hl4 & He4).
  exists (e1 ++ e2 ++ e3 ++ e4)%list.
  assert (Heq : (((([first] ++ e1) ++ e2) ++ e3) ++ e4)%list =
                first :: (e1 ++ e2 ++ e3 ++ e4)%list).
  { by rewrite <- !app_assoc. }
  rewrite Heq. split; [done|]. split; [|split].
  - rewrite !length_app. lia.
  - intros line Hin.
    apply elem_of_app in Hin as [Hin|Hin];
      [|apply elem_of_app in Hin as [Hin|Hin];
        [|apply elem_of_app in Hin as [Hin|Hin]]].
    + destruct (He1 line Hin) as (text & -> & Hne).
      exists "Title: ", text. repeat split; [|done]. left.
    + destruct (He2 line Hin) as (text & -> & Hne).
      exists "Description: ", text. repeat split; [|done]. right; left.
    + destruct (He3 line Hin) as [-> Ht].
      eexists "Status: ", _. repeat split;
        [right; right; left | by apply truthy_String_nonempty].
    + destruct (He4 line Hin) as [-> Ht].
      eexists "Publication Level: ", _. repeat split;
        [right; right; right; left | by apply truthy_String_nonempty].
  - intros Hid. unfold first, or_else. by rewrite Hid.
Qed.

Lemma formatConceptResult_lines_witness :
  ∃ lines,
    formatConceptResult
      (Some {| concept_identifier := PUndefined; concept_id := PStr "test-456";
               concept_title := Some [("de", PStr "")];
               concept_description := None;
               registrationStatus := PStr "Recorded";
               publicationLevel := PUndefined |}) =
      join newline (("Concept ID: " +:+ String_ (PStr "test-456")) :: lines).
Proof.
  destruct (formatConceptResult_lines
              {| concept_identifier := PUndefined; concept_id := PStr "test-456";
                 concept_title := Some [("de", PStr "")];
                 concept_description := None;
                 registrationStatus := PStr "Recorded";
                 publicationLevel := PUndefined |})
    as (lines & _ & _ & _ & H).
  exists lines. apply H. reflexivity.
Defined.

End DisplayFacts.

(** ** Validation and dispatch *)

Section Dispatch.
Import Zod Schemas Server I14YClient.

(** What the object parser leaves at a key of the shape. *)
Lemma parse_shape_lookup (shape : ZodObject) (data : gmap string prim)
    (key : string) (t : ZodType) :
  NoDup shape.*1 →
  (key, t) ∈ shape →
  (parse_shape shape data).1 = [] →
  (_parse t [key] (default PUndefined (data !! key))).1 = [] ∧
  default PUndefined ((parse_shape shape data).2 !! key) =
    (_parse t [key] (default PUndefined (data !! key))).2.
Proof.
  induction shape as [|[k t'] rest IH]; intros Hnd Hin Hok.
  - by apply elem_of_nil in Hin.
  - simpl in Hnd. apply NoDup_cons in Hnd as [Hk Hnd].
    cbn [parse_shape fst snd] in *.
    apply app_eq_nil in Hok as [Hr Hrs].
    apply elem_of_cons in Hin as [[= -> ->]|Hin].
    + split; [exact Hr|].
      pose proof (parse_shape_strips rest data k Hk) as Hstrip.
      destruct (_parse t' [k] (default PUndefined (data !! k))).2 eqn:E,
        (data !! k); rewrite ?lookup_insert_eq, ?Hstrip; done.
    + assert (key ≠ k).
      { intros ->. apply Hk. apply list_elem_of_fmap. by exists (k, t). }
      destruct (IH Hnd Hin Hrs) as [H1 H2]. split; [exact H1|].
      destruct (_parse t' [k] (default PUndefined (data !! k))).2,
        (data !! k); rewrite ?lookup_insert_ne by done; done.
Qed.

Lemma page_schema_output (path : list string) (d : prim) :
  (_parse page_schema path d).1 = [] →
  ∃ p, (_parse page_schema path d).2 = PNum p ∧ 1 ≤ p ∧
       (d = PUndefined → p = 1) ∧ (∀ n, d = PNum n → p = n).
Proof.
  destruct d as [| |b|n|s]; cbn; try done.
  - intros _. exists 1. repeat split; [lia|done].
  - destruct (n <? 1) eqn:E; [done|]. intros _. exists n.
    repeat split; [lia|done|by intros ? [= ->]].
Qed.

Lemma pageSize_schema_output (path : list string) (d : prim) :
  (_parse pageSize_schema path d).1 = [] →
  ∃ p, (_parse pageSize_schema path d).2 = PNum p ∧ 1 ≤ p ≤ 100 ∧
       (d = PUndefined → p = 25) ∧ (∀ n, d = PNum n → p = n).
Proof.
  destruct d as [| |b|n|s]; cbn; try done.
  - intros _. exists 25. repeat split; [lia|lia|done].
  - destruct (n <? 1) eqn:E1; [done|]. destruct (n >? 100) eqn:E2; [done|].
    intros _. exists n. repeat split; [lia|lia|done|by intros ? [= ->]].
Qed.

Lemma default_Some (m : gmap string prim) (key : string) (p : Z) :
  default PUndefined (m !! key) = PNum p → m !! key = Some (PNum p).
Proof. destruct (m !! key); simpl; congruence. Qed.

(** A schema with the two pagination fields: what a validated object
    holds at them. *)
Lemma paginated_schema_output (schema : ZodObject)
    (args validated : gmap string prim) :
  NoDup schema.*1 →
  ("page", page_schema) ∈ schema →
  ("pageSize", pageSize_schema) ∈ schema →
  parse schema args = Return validated →
  ∃ page pageSize,
    validated !! "page" = Some (PNum page) ∧ 1 ≤ page ∧
    validated !! "pageSize" = Some (PNum pageSize) ∧ 1 ≤ pageSize ≤ 100 ∧
    (args !! "page" = None → page = 1) ∧
    (args !! "pageSize" = None → pageSize = 25) ∧
    (∀ n, args !! "page" = Some (PNum n) → page = n) ∧
    (∀ n, args !! "pageSize" = Some (PNum n) → pageSize = n).
Proof.
  intros Hnd Hp Hs. unfold parse.
  destruct (parse_shape schema args).1 eqn:Hok; [|done]. intros [= <-].
  destruct (parse_shape_lookup schema args _ _ Hnd Hp Hok) as [Hp1 Hp2].
  destruct (parse_shape_lookup schema args _ _ Hnd Hs Hok) as [Hs1 Hs2].
  destruct (page_schema_output _ _ Hp1) as (page & Ep & Hpage & Hpd & Hpn).
  destruct (pageSize_schema_output _ _ Hs1) as (size & Es & Hsize & Hsd & Hsn).
  exists page, size.
  rewrite Ep in Hp2. rewrite Es in Hs2.
  split; [by apply default_Some|]. split; [done|].
  split; [by apply default_Some|]. split; [done|].
  split; [intros E; apply Hpd; by rewrite E|].
  split; [intros E; apply Hsd; by rewrite E|].
  split; [intros n E; apply Hpn; by rewrite E|].
  intros n E; apply Hsn; by rewrite E.
Qed.

(** Whatever the arguments, an object that passed one of the paginated
    schemas has a [page] of at least 1 and a [pageSize] between 1 and
    100: what was given when it was given, 1 and 25 otherwise. Keys
    outside the schema are gone. *)
Theorem validated_pagination (schema : ZodObject)
    (args validated : gmap string prim) :
  schema ∈ [searchConceptsSchema; getCodeListEntriesSchema;
            searchDatasetsSchema; searchDataServicesSchema;
            searchPublicServicesSchema] →
  parse schema args = Return validated →
  (∃ page pageSize,
     validated !! "page" = Some (PNum page) ∧ 1 ≤ page ∧
     validated !! "pageSize" = Some (PNum pageSize) ∧ 1 ≤ pageSize ≤ 100 ∧
     (args !! "page" = None → page = 1) ∧
     (args !! "pageSize" = None → pageSize = 25) ∧
     (∀ n, args !! "page" = Some (PNum n) → page = n) ∧
     (∀ n, args !! "pageSize" = Some (PNum n) → pageSize = n)) ∧
  (∀ key, key ∉ schema.*1 → validated !! key = None).
Proof.
  intros Hin Hparse. split.
  - apply (paginated_schema_output schema args validated); [| | |exact Hparse];
      repeat (apply elem_of_cons in Hin as [->|Hin]);
      try (by apply elem_of_nil in Hin);
      first [ compute_done | repeat first [by left | right] ].
  - intros key Hkey. unfold parse in Hparse.
    destruct (parse_shape schema args).1; [|done].
    injection Hparse as <-. by apply parse_shape_strips.
Qed.

Lemma validated_pagination_witness :
  ∃ page pageSize,
    (<["pageSize" := PNum 50]> (<["page" := PNum 1]> ∅) : gmap string prim)
      !! "page" = Some (PNum page) ∧ 1 ≤ page ∧
    (<["pageSize" := PNum 50]> (<["page" := PNum 1]> ∅) : gmap string prim)
      !! "pageSize" = Some (PNum pageSize) ∧ 1 ≤ pageSize ≤ 100.
Proof.
  destruct (validated_pagination searchDatasetsSchema
              {[ "pageSize" := PNum 50; "extra" := PBool true ]}
              (<["pageSize" := PNum 50]> (<["page" := PNum 1]> ∅)))
    as [(page & pageSize & H1 & H2 & H3 & H4 & _) _].
  - right; right; left.
  - vm_compute. reflexivity.
  - by exists page, pageSize.
Defined.



Lemma entry_of_number (n : Z) : entry_of (PNum n) = Some (Number_toString n).
Proof. reflexivity. Qed.





End Dispatch.

(** ** Configuration *)

Section Configuration.
Import Config.










(** The base URL is the one required setting. Outside the test
    environment the module throws when it is missing or empty, so a
    configuration that loads always validates and lets the client be
    constructed on it. In the test environment the module loads without
    it, and then both [validateConfig] and the constructor of the client
    throw. *)
Theorem config_base_url_required (env : gmap string string) :
  let missing := env !! "I14Y_API_BASE_URL" = None ∨
                 env !! "I14Y_API_BASE_URL" = Some "" in
  (missing → env !! "NODE_ENV" ≠ Some "test" →
   load env = Throw (new_Error "I14Y_API_BASE_URL is required")) ∧
  (∀ config, load env = Return config →
     (¬ missing →
      validateConfig config = Return tt ∧
      ∃ client,
        Client.constructor (apiBaseUrl config) PUndefined = Return client ∧
        Client.baseUrl client = apiBaseUrl config) ∧
     (missing →
      env !! "NODE_ENV" = Some "test" ∧
      validateConfig config =
        Throw (new_Error ("Configuration errors:" +:+ newline +:+
                          "I14Y_API_BASE_URL is required")) ∧
      Client.constructor (apiBaseUrl config) PUndefined =
        Throw (new_Error "Base URL is required"))).
Proof.
  intros missing.
  assert (Hm : missing ↔ truthy (env_get env "I14Y_API_BASE_URL") = false).
  { unfold missing, env_get.
    destruct (env !! "I14Y_API_BASE_URL") as [[|c url]|]; simpl;
      split; intros H; try done; try (by destruct H); eauto. }
  assert (Ht : strict_eq (env_get env "NODE_ENV") (PStr "test") = true ↔
               env !! "NODE_ENV" = Some "test").
  { unfold env_get. destruct (env !! "NODE_ENV") as [mode|]; simpl.
    - rewrite String.eqb_eq. split; congruence.
    - split; done. }
  split.
  - intros Hmiss Hnt. unfold load. apply Hm in Hmiss. rewrite Hmiss.
    destruct (strict_eq (env_get env "NODE_ENV") (PStr "test")) eqn:E;
      [exfalso; by apply Hnt, Ht|reflexivity].
  - intros config Hc. unfold load in Hc.
    destruct (truthy (env_get env "I14Y_API_BASE_URL")) eqn:Hb;
      cbn [negb andb] in Hc.
    + injection Hc as <-. split.
      * intros _. unfold validateConfig, Client.constructor.
        cbn [apiBaseUrl]. rewrite Hb. split; [reflexivity|].
        eexists. split; reflexivity.
      * intros Hmiss. apply Hm in Hmiss. congruence.
    + destruct (strict_eq (env_get env "NODE_ENV") (PStr "test")) eqn:E;
        cbn [negb] in Hc; [|done].
      injection Hc as <-. split.
      * intros Hn. exfalso. by apply Hn, Hm.
      * intros _. split; [by apply Ht|].
        unfold validateConfig, Client.constructor.
        cbn [apiBaseUrl]. rewrite Hb. split; reflexivity.
Qed.

Lemma config_base_url_required_witness :
  load {[ "NODE_ENV" := "production" ]} =
    Throw (new_Error "I14Y_API_BASE_URL is required").
Proof.
  apply (config_base_url_required {[ "NODE_ENV" := "production" ]});
    [by left | by rewrite lookup_singleton_eq].
Defined.





End Configuration.

(** ** Failed requests in the other tools *)

Section ToolFailures.
Import Zod Schemas Server.

(** A handler that answers its failures with a prefix and
    [error.message]: when the one request fails with [e], the text is
    the prefix and the message of what the client rejects with. *)
Lemma prefixed_handler_failure (schema : ZodObject)
    (call : gmap string prim → IO json) (prefix : string)
    (args parsed : gmap string prim) (transport : Transport) (e : jsval)
    (m : prim) :
  parse schema args = Return parsed →
  (∃ url options, call parsed = try_catch (ky_get url options) I14YClient.rethrow) →
  (∀ request, transport request = Throw e) →
  get_message (rejection e) = Return m →
  ∃ request,
    try_catch
      (parsed ← lift (parse schema args);
       result ← call parsed;
       mret (formatSuccess result))
      (error_text prefix) transport =
      ([request], Return (text_envelope (prefix +:+ String_ m) (Some true))).
Proof.
  intros Hparse (url & options & Hc) Ht Hm. eexists.
  unfold try_catch at 1, lift, mbind at 1 2, IO_bind, mret, IO_ret.
  rewrite Hparse. cbn [fst snd]. rewrite Hc, client_call, Ht.
  unfold rejection in Hm.
  destruct (_handleError e) as [e'|e']; cbn [fst snd app];
    rewrite (error_text_run prefix e' m transport Hm); reflexivity.
Qed.

(** What the concept, data service and public service tools show when
    the upstream answers with an HTTP error of status [s]: the prefix
    of the tool, then the canonical message for a status of the
    normalizer's table, and for any other status the message of the
    upstream error alone; the status does not show. *)
Theorem prefixed_tools_failed_request
    (handler : gmap string prim → IO Envelope) (schema : ZodObject)
    (prefix : string) (args parsed : gmap string prim)
    (transport : Transport) (o : Object) (s : Z) :
  (handler, schema, prefix) ∈
    [ (ConceptTools.searchConcepts, searchConceptsSchema,
       "Error searching concepts: ");
      (ConceptTools.getConcept, getConceptSchema, "Error getting concept: ");
      (ConceptTools.getCodeListEntries, getCodeListEntriesSchema,
       "Error getting code list entries: ");
      (DataServiceTools.searchDataServices, searchDataServicesSchema,
       "Error: ");
      (DataServiceTools.getDataService, getDataServiceSchema, "Error: ");
      (PublicServiceTools.searchPublicServices, searchPublicServicesSchema,
       "Error: ");
      (PublicServiceTools.getPublicService, getPublicServiceSchema,
       "Error: ") ] →
  parse schema args = Return parsed →
  (∀ request, transport request = Throw (Obj o)) →
  response o = Some {| status := s |} →
  ∃ request text,
    handler args transport =
      ([request], Return (text_envelope (prefix +:+ text) (Some true))) ∧
    (s = 400 → text = canonical_message s "Bad Request - Invalid parameters") ∧
    (s = 401 → text = canonical_message s "Unauthorized") ∧
    (s = 403 → text = canonical_message s "Forbidden") ∧
    (s = 404 → text = canonical_message s "Resource not found") ∧
    (500 <= s → text = canonical_message s "Server error") ∧
    (s < 500 → s ≠ 400 → s ≠ 401 → s ≠ 403 → s ≠ 404 →
     text = String_ (message o)).
Proof.
  intros Hin Hparse Ht Hr.
  assert (Hm : ∃ m, get_message (rejection (Obj o)) = Return m ∧
            (s = 400 → String_ m =
               canonical_message s "Bad Request - Invalid parameters") ∧
            (s = 401 → String_ m = canonical_message s "Unauthorized") ∧
            (s = 403 → String_ m = canonical_message s "Forbidden") ∧
            (s = 404 → String_ m = canonical_message s "Resource not found") ∧
            (500 <= s → String_ m = canonical_message s "Server error") ∧
            (s < 500 → s ≠ 400 → s ≠ 401 → s ≠ 403 → s ≠ 404 →
             String_ m = String_ (message o))).
  { unfold rejection. rewrite (handleError_with_response o s Hr).
    destruct (s =? 400) eqn:E400;
      [|destruct (s =? 401) eqn:E401;
        [|destruct (s =? 403) eqn:E403;
          [|destruct (s =? 404) eqn:E404;
            [|destruct (s >=? 500) eqn:E500]]]];
      eexists; (split; [reflexivity|]);
      repeat split; intros; try reflexivity; lia. }
  destruct Hm as (m & Hm & Htable).
  assert (Hrun : ∃ request,
            handler args transport =
              ([request],
               Return (text_envelope (prefix +:+ String_ m) (Some true)))).
  { repeat (apply elem_of_cons in Hin as [[= -> -> ->]|Hin]);
      [| | | | | | |by apply elem_of_nil in Hin].
    - apply (prefixed_handler_failure searchConceptsSchema
               (λ params, I14YClient.searchConcepts params) _ args parsed
               transport (Obj o) m); [done|by eexists _, _|done|done].
    - apply (prefixed_handler_failure getConceptSchema
               (λ parsed, I14YClient.getConcept (prop parsed "id") false)
               _ args parsed transport (Obj o) m);
        [done|by eexists _, _|done|done].
    - apply (prefixed_handler_failure getCodeListEntriesSchema
               (λ parsed, I14YClient.getConcept (prop parsed "id") true)
               _ args parsed transport (Obj o) m);
        [done|by eexists _, _|done|done].
    - apply (prefixed_handler_failure searchDataServicesSchema
               (λ params, I14YClient.searchDataServices params) _ args parsed
               transport (Obj o) m); [done|by eexists _, _|done|done].
    - apply (prefixed_handler_failure getDataServiceSchema
               (λ parsed, I14YClient.getDataService (prop parsed "id"))
               _ args parsed transport (Obj o) m);
        [done|by eexists _, _|done|done].
    - apply (prefixed_handler_failure searchPublicServicesSchema
               (λ params, I14YClient.searchPublicServices params) _ args
               parsed transport (Obj o) m); [done|by eexists _, _|done|done].
    - apply (prefixed_handler_failure getPublicServiceSchema
               (λ parsed, I14YClient.getPublicService (prop parsed "id"))
               _ args parsed transport (Obj o) m);
        [done|by eexists _, _|done|done]. }
  destruct Hrun as [request Hrun].
  exists request, (String_ m). split; [exact Hrun|exact Htable].
Qed.

Lemma prefixed_tools_failed_request_witness :
  ∃ request text,
    ConceptTools.getConcept
      {[ "id" := PStr "08dd632d-aaf9-4b1c-b1c5-2bc3e2b8a8a1" ]}
      (failing (Obj (http_error "Too Many Requests" 429))) =
      ([request],
       Return (text_envelope ("Error getting concept: " +:+ text) (Some true))) ∧
    text = "Too Many Requests".
Proof.
  destruct (prefixed_tools_failed_request ConceptTools.getConcept
              getConceptSchema "Error getting concept: "
              {[ "id" := PStr "08dd632d-aaf9-4b1c-b1c5-2bc3e2b8a8a1" ]}
              {[ "id" := PStr "08dd632d-aaf9-4b1c-b1c5-2bc3e2b8a8a1" ]}
              (failing (Obj (http_error "Too Many Requests" 429)))
              (http_error "Too Many Requests" 429) 429)
    as (request & text & Hrun & _ & _ & _ & _ & _ & Hother).
  - right; left.
  - vm_compute. reflexivity.
  - reflexivity.
  - reflexivity.
  - exists request, text. split; [exact Hrun|].
    rewrite Hother; [reflexivity|lia|lia|lia|lia|lia].
Defined.



End ToolFailures.
